(** * svelte-firekit: reactive wrappers over the vendor SDK

    A shallow embedding of the subscription wrappers (FirekitDoc,
    FirekitCollectionGroup, FirekitRealtimeDB), of the document mutation
    facade (FirekitDocumentMutations) and of the presence service
    (PresenceService.initialize / setPresence), together with the
    properties the specification states about them.

    JavaScript objects are finite maps from property names to values;
    the vendor SDK is an oracle whose answers are arbitrary. *)

From Stdlib Require Import ZArith Ascii String.
From stdpp Require Import base option list gmap strings fin_maps.

Local Set Warnings "-clear-no-such-hyp".

Local Open Scope string_scope.
Local Open Scope list_scope.

(** ** JavaScript values *)

Module Js.

(** The values that cross the wrappers.  The numbers met here are integers
    (milliseconds, counts).  [VServerTimestamp] is the sentinel that the
    vendor's [serverTimestamp()] returns. *)
#[warnings="-register-all"]
Inductive value : Type :=
  | VUndefined
  | VNull
  | VBool (b : bool)
  | VNum (n : Z)
  | VStr (s : string)
  | VServerTimestamp
  | VObj (fields : gmap string value).

Abbreviation obj := (gmap string value).

(** ToBoolean.  Objects and the sentinel are truthy. *)
Definition truthy (v : value) : bool :=
  match v with
  | VUndefined | VNull => false
  | VBool b => b
  | VNum n => negb (n =? 0)%Z
  | VStr s => negb (String.eqb s "")
  | VServerTimestamp | VObj _ => true
  end.

(** [a || b] *)
Definition or_else (a b : value) : value := if truthy a then a else b.

(** [a ?? b] *)
Definition nullish (a b : value) : value :=
  match a with
  | VUndefined | VNull => b
  | _ => a
  end.

(** [o.k] on an object: a missing property reads as [undefined]. *)
Definition get (o : obj) (k : string) : value := default VUndefined (o !! k).

(** [{ ...o, ...ext }]: the properties of [ext] win. *)
Definition spread (o ext : obj) : obj := ext ∪ o.

(** [{ ...o, k: v }] *)
Definition with_prop (o : obj) (k : string) (v : value) : obj := <[k := v]> o.

(** A call either returns or throws.  What is thrown is an object: the vendor
    SDK and the runtime throw instances of [Error] only. *)
Inductive outcome (A : Type) : Type :=
  | Returned (a : A)
  | Thrown (e : obj).
Arguments Returned {A} a.
Arguments Thrown {A} e.

End Js.

Import Js.

(** ** Vendor handles shared by the Firestore wrappers *)

(** A [DocumentReference]: only [id] and [path] are read by the wrappers. *)
Record DocumentReference : Type := mkDocRef { ref_id : string; ref_path : string }.

(** ** FirekitDoc (firestore/doc.svelte.js) *)

Module FirekitDoc.

(** What [onSnapshot] hands to the success callback: [snapshot.id] and
    [snapshot.data()], the latter [undefined] ([None]) for a missing document. *)
Record DocumentSnapshot : Type := mkSnap { snap_id : string; snap_data : option obj }.

(** The instance fields.  [None] is JavaScript's [null]. *)
Record t : Type := mk {
  _data : option obj;
  _loading : bool;
  _error : option obj;
  docRef : option DocumentReference
}.

(** The answers of the vendor SDK during construction. *)
Record sdk : Type := mkSdk {
  getDbInstance : outcome unit;
  doc : string -> outcome DocumentReference;
  onSnapshot : DocumentReference -> outcome unit
}.

(** Field initialisers followed by [this._data = startWith ?? null]. *)
Definition init (startWith : option obj) : t :=
  {| _data := startWith; _loading := true; _error := None; docRef := None |}.

(** The [catch] clause of the constructor. *)
Definition caught (st : t) (e : obj) : t :=
  {| _data := _data st; _loading := false; _error := Some e; docRef := docRef st |}.

Definition set_docRef (st : t) (r : DocumentReference) : t :=
  {| _data := _data st; _loading := _loading st; _error := _error st; docRef := Some r |}.

(** [constructor(ref, startWith)]; [ref] is a path ([inl]) or a reference. *)
Definition constructor (browser : bool) (v : sdk)
    (ref : string + DocumentReference) (startWith : option obj) : t :=
  let st := init startWith in
  if browser then
    match getDbInstance v with
    | Thrown e => caught st e
    | Returned _ =>
        match (match ref with inl p => doc v p | inr r => Returned r end) with
        | Thrown e => caught st e
        | Returned r =>
            let st := set_docRef st r in
            match onSnapshot v r with
            | Thrown e => caught st e
            | Returned _ => st
            end
        end
    end
  else st.

(** The success callback passed to [onSnapshot]. *)
Definition on_snapshot (st : t) (snapshot : DocumentSnapshot) : t :=
  let data := snap_data snapshot in
  {| _data := match data with
              | Some d => Some (with_prop d "id" (VStr (snap_id snapshot)))
              | None => None
              end;
     _loading := false;
     _error := None;
     docRef := docRef st |}.

(** The error callback passed to [onSnapshot]. *)
Definition on_error (st : t) (error : obj) : t :=
  {| _data := _data st; _loading := false; _error := Some error; docRef := docRef st |}.

(** Getters. *)
Definition data (st : t) : option obj := _data st.
Definition loading (st : t) : bool := _loading st.
Definition error (st : t) : option obj := _error st.
Definition id (st : t) : string :=
  match docRef st with Some r => ref_id r | None => "" end.
Definition exists_ (st : t) : bool :=
  match _data st with Some _ => true | None => false end.

(** What the vendor may deliver after subscription. *)
Inductive event : Type :=
  | Snapshot (s : DocumentSnapshot)
  | Error (e : obj).

Definition step (st : t) (ev : event) : t :=
  match ev with
  | Snapshot s => on_snapshot st s
  | Error e => on_error st e
  end.

Definition run (st : t) (evs : list event) : t := fold_left step evs st.

End FirekitDoc.

(** ** FirekitCollectionGroup (firestore/collection-group.svelte.js) *)

Module FirekitCollectionGroup.

(** A [QueryDocumentSnapshot]: [doc.id], [doc.ref.path] and [doc.data()]. *)
Record QueryDocumentSnapshot : Type := mkQDoc {
  doc_id : string;
  doc_ref : DocumentReference;
  doc_data : obj
}.

(** A [QuerySnapshot] is read through [snapshot.docs] only. *)
Record QuerySnapshot : Type := mkQSnap { docs : list QueryDocumentSnapshot }.

Record t : Type := mk {
  _data : list obj;
  _loading : bool;
  _error : option obj;
  queryRef : option string
}.

(** The answers of the vendor SDK during construction; query constraints
    are opaque values handed to [query]. *)
Record sdk : Type := mkSdk {
  getDbInstance : outcome unit;
  collectionGroup : string -> outcome string;
  query : string -> list value -> outcome string;
  onSnapshot : string -> outcome unit
}.

Definition init : t :=
  {| _data := []; _loading := true; _error := None; queryRef := None |}.

Definition caught (st : t) (e : obj) : t :=
  {| _data := _data st; _loading := false; _error := Some e; queryRef := queryRef st |}.

Definition constructor (browser : bool) (v : sdk) (collectionId : string)
    (queryConstraints : list value) : t :=
  if browser then
    match getDbInstance v with
    | Thrown e => caught init e
    | Returned _ =>
        match collectionGroup v collectionId with
        | Thrown e => caught init e
        | Returned groupRef =>
            match query v groupRef queryConstraints with
            | Thrown e => caught init e
            | Returned q =>
                let st := {| _data := _data init; _loading := _loading init;
                             _error := _error init; queryRef := Some q |} in
                match onSnapshot v q with
                | Thrown e => caught st e
                | Returned _ => st
                end
            end
        end
    end
  else init.

(** [{ id: doc.id, path: doc.ref.path, ...doc.data() }] *)
Definition project (doc : QueryDocumentSnapshot) : obj :=
  spread (with_prop (with_prop ∅ "id" (VStr (doc_id doc)))
                    "path" (VStr (ref_path (doc_ref doc))))
         (doc_data doc).

Definition on_snapshot (st : t) (snapshot : QuerySnapshot) : t :=
  {| _data := map project (docs snapshot);
     _loading := false;
     _error := None;
     queryRef := queryRef st |}.

Definition on_error (st : t) (error : obj) : t :=
  {| _data := _data st; _loading := false; _error := Some error; queryRef := queryRef st |}.

Definition data (st : t) : list obj := _data st.
Definition loading (st : t) : bool := _loading st.
Definition error (st : t) : option obj := _error st.
Definition empty (st : t) : bool := Nat.eqb (length (_data st)) 0.
Definition size (st : t) : nat := length (_data st).

End FirekitCollectionGroup.

(** ** FirekitRealtimeDB (realtime/realtime.svelte.js) *)

Module FirekitRealtimeDB.

(** The vendor calls the wrapper makes that act on the subscription. *)
Inductive call : Type :=
  | Subscribe (path : string) (handle : nat)
  | Unsubscribe (handle : nat).

(** Instance fields.  [unsubscribe] holds the handle of the function that
    [onValue] returned, [None] for [null]. *)
Record t : Type := mk {
  _data : value;
  _loading : bool;
  _error : option obj;
  dbRef : option string;
  unsubscribe : option nat
}.

Record sdk : Type := mkSdk {
  getDatabaseInstance : outcome unit;
  ref : string -> outcome string;
  onValue : string -> outcome nat
}.

(** [this._data = startWith ?? null] *)
Definition init (startWith : value) : t :=
  {| _data := nullish startWith VNull; _loading := true; _error := None;
     dbRef := None; unsubscribe := None |}.

Definition caught (st : t) (e : obj) : t :=
  {| _data := _data st; _loading := false; _error := Some e;
     dbRef := dbRef st; unsubscribe := unsubscribe st |}.

Definition initializeRealtimeDB (v : sdk) (st : t) (path : string)
    (calls : list call) : t * list call :=
  match getDatabaseInstance v with
  | Thrown e => (caught st e, calls)
  | Returned _ =>
      match ref v path with
      | Thrown e => (caught st e, calls)
      | Returned r =>
          let st := {| _data := _data st; _loading := _loading st; _error := _error st;
                       dbRef := Some r; unsubscribe := unsubscribe st |} in
          match onValue v r with
          | Thrown e => (caught st e, calls)
          | Returned h =>
              ({| _data := _data st; _loading := _loading st; _error := _error st;
                  dbRef := dbRef st; unsubscribe := Some h |},
               calls ++ [Subscribe r h])
          end
      end
  end.

Definition constructor (browser : bool) (v : sdk) (path : string)
    (startWith : value) (calls : list call) : t * list call :=
  let st := init startWith in
  if browser then initializeRealtimeDB v st path calls else (st, calls).

(** The value callback: [snapshot.val()] is the payload. *)
Definition on_value (st : t) (val : value) : t :=
  {| _data := val; _loading := false; _error := None;
     dbRef := dbRef st; unsubscribe := unsubscribe st |}.

Definition on_error (st : t) (error : obj) : t :=
  {| _data := _data st; _loading := false; _error := Some error;
     dbRef := dbRef st; unsubscribe := unsubscribe st |}.

Definition data (st : t) : value := _data st.
Definition loading (st : t) : bool := _loading st.
Definition error (st : t) : option obj := _error st.

(** [dispose()]: calls the stored function when there is one. *)
Definition dispose (st : t) (calls : list call) : t * list call :=
  match unsubscribe st with
  | Some h => (st, calls ++ [Unsubscribe h])
  | None => (st, calls)
  end.

End FirekitRealtimeDB.

(** ** FirekitDocumentMutations (firestore/document-mutations.svelte.js) *)

Module FirekitDocumentMutations.

(** [path.includes('/')] and [path.split('/')]. *)
Fixpoint includes (c : ascii) (s : string) : bool :=
  match s with
  | EmptyString => false
  | String a s' => if Ascii.eqb a c then true else includes c s'
  end.

Fixpoint split_from (c : ascii) (acc : string) (s : string) : list string :=
  match s with
  | EmptyString => [String.rev acc]
  | String a s' =>
      if Ascii.eqb a c then String.rev acc :: split_from c EmptyString s'
      else split_from c (String a acc) s'
  end.

Definition split (c : ascii) (s : string) : list string := split_from c EmptyString s.

(** [MutationOptions]; an absent property is [None]. *)
Record MutationOptions : Type := mkOptions {
  timestamps : option bool;
  merge : option bool;
  customId : option string
}.

(** The default values of the [options] parameter of [add]/[update] and of [set]. *)
Definition default_options : MutationOptions :=
  {| timestamps := Some true; merge := None; customId := None |}.
Definition default_set_options : MutationOptions :=
  {| timestamps := Some true; merge := Some false; customId := None |}.

(** Truthiness of [options.timestamps] and of [options.customId]. *)
Definition timestamps_on (o : MutationOptions) : bool := default false (timestamps o).
Definition customId_given (o : MutationOptions) : option string :=
  match customId o with
  | Some s => if String.eqb s "" then None else Some s
  | None => None
  end.

(** [MutationResponse] *)
Record ErrorInfo : Type := mkErrorInfo { code : value; message : value }.
Record MutationResponse : Type := mkResponse {
  success : bool;
  id : option string;
  data : option obj;
  error : option ErrorInfo
}.

(** A snapshot as [getDoc] resolves it: [exists()] is [is_Some] of [data()]. *)
Record DocumentSnapshot : Type := mkSnap { snap_id : string; snap_data : option obj }.
Definition snap_exists (s : DocumentSnapshot) : bool :=
  match snap_data s with Some _ => true | None => false end.

(** The calls that reach the store, in the order they are made. *)
Inductive call : Type :=
  | AddDoc (collectionPath : string) (payload : obj)
  | SetDoc (ref : DocumentReference) (payload : obj) (options : option (option bool))
  | UpdateDoc (ref : DocumentReference) (payload : obj)
  | DeleteDoc (ref : DocumentReference)
  | GetDoc (ref : DocumentReference).

(** The vendor SDK: each answer may depend on the calls made so far. *)
Record sdk : Type := mkSdk {
  getDbInstance : list call -> outcome unit;
  collection : list call -> string -> outcome string;
  doc : list call -> string -> outcome DocumentReference;
  doc_in : list call -> string -> option string -> outcome DocumentReference;
  addDoc : list call -> string -> obj -> outcome DocumentReference;
  setDoc : list call -> DocumentReference -> obj -> outcome unit;
  updateDoc : list call -> DocumentReference -> obj -> outcome unit;
  deleteDoc : list call -> DocumentReference -> outcome unit;
  getDoc : list call -> DocumentReference -> outcome DocumentSnapshot
}.

(** Computations that call the vendor: the log of store calls is threaded,
    and a computation ends by returning or by throwing. *)
Definition M (A : Type) : Type := list call -> outcome A * list call.

#[export] Instance M_ret : MRet M := fun A a h => (Returned a, h).
#[export] Instance M_bind : MBind M := fun A B f m h =>
  match m h with
  | (Returned a, h') => f a h'
  | (Thrown e, h') => (Thrown e, h')
  end.

(** [try { body } catch (error) { return handler(error) }] *)
Definition try_catch {A} (body : M A) (handler : obj -> A) : M A := fun h =>
  match body h with
  | (Returned a, h') => (Returned a, h')
  | (Thrown e, h') => (Returned (handler e), h')
  end.

(** A vendor call that does not reach the store. *)
Definition ask {A} (f : list call -> outcome A) : M A := fun h => (f h, h).
(** A vendor call that reaches the store: logged, then answered. *)
Definition store {A} (c : call) (f : list call -> outcome A) : M A :=
  fun h => (f h, h ++ [c]).

Section Methods.

Variable v : sdk.
(** [firekitUser.uid]: a string, or [undefined] when nobody is signed in. *)
Variable uid : value.

Definition getTimestampData (isNew : bool) : obj :=
  let timestamps := with_prop (with_prop ∅ "updatedAt" VServerTimestamp) "updatedBy" uid in
  if isNew
  then with_prop (with_prop timestamps "createdAt" VServerTimestamp) "createdBy" uid
  else timestamps.

Definition handleError (error : obj) : MutationResponse :=
  {| success := false;
     id := None;
     data := None;
     error := Some {| code := or_else (get error "code") (VStr "unknown_error");
                      message := or_else (get error "message")
                                         (VStr "An unknown error occurred") |} |}.

(** [...(options.timestamps && this.getTimestampData(isNew))]: spreading a
    falsy value adds nothing. *)
Definition spread_timestamps (data : obj) (options : MutationOptions) (isNew : bool) : obj :=
  if timestamps_on options then spread data (getTimestampData isNew) else data.

Definition add_body (collectionPath : string) (data : obj) (options : MutationOptions)
    : M MutationResponse :=
  _ ← ask (getDbInstance v);
  colRef ← ask (λ h, collection v h collectionPath);
  let dataToAdd := spread_timestamps data options true in
  '(docRef, dataToAdd) ←
    match customId_given options with
    | Some cid =>
        docRef ← ask (λ h, doc_in v h colRef (Some cid));
        let dataToAdd := with_prop dataToAdd "id" (VStr (ref_id docRef)) in
        _ ← store (SetDoc docRef dataToAdd None) (λ h, setDoc v h docRef dataToAdd);
        mret (docRef, dataToAdd)
    | None =>
        docRef ← store (AddDoc colRef dataToAdd) (λ h, addDoc v h colRef dataToAdd);
        let dataToAdd := with_prop dataToAdd "id" (VStr (ref_id docRef)) in
        _ ← store (SetDoc docRef dataToAdd None) (λ h, setDoc v h docRef dataToAdd);
        mret (docRef, dataToAdd)
    end;
  mret {| success := true;
          id := Some (ref_id docRef);
          data := Some (with_prop dataToAdd "id" (VStr (ref_id docRef)));
          error := None |}.

Definition add (collectionPath : string) (data : obj) (options : MutationOptions)
    : M MutationResponse :=
  try_catch (add_body collectionPath data options) handleError.

Definition set_body (path : string) (data : obj) (options : MutationOptions)
    : M MutationResponse :=
  _ ← ask (getDbInstance v);
  docRef ←
    (if includes "/" path then ask (λ h, doc v h path)
     else
       let parts := split "/" path in
       colRef ← ask (λ h, collection v h (nth 0 parts ""));
       ask (λ h, doc_in v h colRef (parts !! 1%nat)));
  let dataToSet :=
    with_prop (spread_timestamps data options true) "id" (VStr (ref_id docRef)) in
  _ ← store (SetDoc docRef dataToSet (Some (merge options)))
            (λ h, setDoc v h docRef dataToSet);
  mret {| success := true; id := Some (ref_id docRef);
          data := Some dataToSet; error := None |}.

Definition set (path : string) (data : obj) (options : MutationOptions)
    : M MutationResponse :=
  try_catch (set_body path data options) handleError.

Definition update_body (path : string) (data : obj) (options : MutationOptions)
    : M MutationResponse :=
  _ ← ask (getDbInstance v);
  docRef ← ask (λ h, doc v h path);
  let dataToUpdate := spread_timestamps data options false in
  _ ← store (UpdateDoc docRef dataToUpdate) (λ h, updateDoc v h docRef dataToUpdate);
  mret {| success := true; id := Some (ref_id docRef);
          data := Some dataToUpdate; error := None |}.

Definition update (path : string) (data : obj) (options : MutationOptions)
    : M MutationResponse :=
  try_catch (update_body path data options) handleError.

Definition delete_body (path : string) : M MutationResponse :=
  _ ← ask (getDbInstance v);
  docRef ← ask (λ h, doc v h path);
  _ ← store (DeleteDoc docRef) (λ h, deleteDoc v h docRef);
  mret {| success := true; id := Some (ref_id docRef); data := None; error := None |}.

Definition delete (path : string) : M MutationResponse :=
  try_catch (delete_body path) handleError.

Definition exists_body (path : string) : M bool :=
  _ ← ask (getDbInstance v);
  docRef ← ask (λ h, doc v h path);
  docSnap ← store (GetDoc docRef) (λ h, getDoc v h docRef);
  mret (snap_exists docSnap).

Definition exists_ (path : string) : M bool :=
  try_catch (exists_body path) (λ _, false).

Definition not_found : MutationResponse :=
  {| success := false; id := None; data := None;
     error := Some {| code := VStr "not_found";
                      message := VStr "Document does not exist" |} |}.

Definition getDoc_body (path : string) : M MutationResponse :=
  _ ← ask (getDbInstance v);
  docRef ← ask (λ h, doc v h path);
  docSnap ← store (GetDoc docRef) (λ h, getDoc v h docRef);
  if negb (snap_exists docSnap) then mret not_found
  else
    mret {| success := true;
            id := Some (snap_id docSnap);
            data := Some (spread (with_prop ∅ "id" (VStr (snap_id docSnap)))
                                 (default ∅ (snap_data docSnap)));
            error := None |}.

Definition getDoc_ (path : string) : M MutationResponse :=
  try_catch (getDoc_body path) handleError.

End Methods.

End FirekitDocumentMutations.

(** ** PresenceService (auth/presence.svelte.js) *)

Module PresenceService.

Inductive Status : Type := online | offline | away.

(** [SessionData] of presence.svelte.d.ts; [Location] is carried as is. *)
Record SessionData {Location : Type} : Type := mkSession {
  uid : string;
  userId : string;
  deviceId : string;
  status : Status;
  createdAt : string;
  lastSeen : string;
  location : option Location
}.
Arguments SessionData : clear implicits.
Arguments mkSession {Location}.

Inductive GeolocationType : Type := browser_geo | ip_geo | custom_geo.

Record GeolocationConfig : Type := mkGeo {
  enabled : bool;
  geo_type : GeolocationType;
  requireConsent : bool
}.

(** [this.config]; [None] is [undefined]. *)
Record Config : Type := mkConfig {
  geolocation : option GeolocationConfig;
  sessionTTL : option Z;
  updateInterval : option Z
}.

(** The [config] argument of [initialize]: an absent key is the outer [None]. *)
Record PresenceConfig : Type := mkPresenceConfig {
  arg_geolocation : option (option GeolocationConfig);
  arg_sessionTTL : option (option Z);
  arg_updateInterval : option (option Z)
}.

Definition default_config : Config :=
  {| geolocation := Some {| enabled := false; geo_type := browser_geo;
                            requireConsent := true |};
     sessionTTL := Some (30 * 60 * 1000)%Z;
     updateInterval := Some (60 * 1000)%Z |}.

(** [{ ...this.config, ...config }] *)
Definition merge_config (c : Config) (arg : option PresenceConfig) : Config :=
  match arg with
  | None => c
  | Some a =>
      {| geolocation := default (geolocation c) (arg_geolocation a);
         sessionTTL := default (sessionTTL c) (arg_sessionTTL a);
         updateInterval := default (updateInterval c) (arg_updateInterval a) |}
  end.

(** Truthiness of [this.config.sessionTTL]. *)
Definition ttl_configured (c : Config) : option Z :=
  match sessionTTL c with
  | Some n => if (n =? 0)%Z then None else Some n
  | None => None
  end.

Record User : Type := mkUser { user_uid : string }.

Section Service.

Context {Location : Type}.

Abbreviation Session := (SessionData Location).

Inductive PresenceEvent : Type :=
  | InitEvent (userId : string) (timestamp : Z)
  | ErrorEvent (error : obj) (timestamp : Z)
  | StatusChangeEvent (status : Status) (sessionId : string)
      (location : option Location) (timestamp : Z)
  | DisconnectEvent (timestamp : Z)
  | LocationUpdateEvent (location : Location) (timestamp : Z).

(** Instance fields.  A listener returns or throws. *)
Record t : Type := mk {
  connectedListener : option nat;
  locationWatcher : option nat;
  currentUser : option User;
  eventListeners : list (PresenceEvent -> outcome unit);
  config : Config;
  initialized : bool;
  locationConsent : bool;
  _currentSession : option Session;
  _sessions : list Session;
  _status : Status;
  _loading : bool;
  _error : option obj
}.

Definition initial : t :=
  {| connectedListener := None; locationWatcher := None; currentUser := None;
     eventListeners := []; config := default_config; initialized := false;
     locationConsent := false; _currentSession := None; _sessions := [];
     _status := offline; _loading := true; _error := None |}.

(** Getters. *)
Definition currentSession (s : t) : option Session := _currentSession s.
Definition sessions (s : t) : list Session := _sessions s.
Definition error (s : t) : option obj := _error s.
Definition loading (s : t) : bool := _loading s.

(** What [get(userSessionsRef)] resolves to: [None] when [exists()] is false,
    otherwise [val().sessionDatas] ([None] when that property is missing). *)
Definition SessionsSnapshot : Type := option (option (list Session)).

(** Writes to the realtime database. *)
Inductive dbcall : Type :=
  | DbSet (ref : string) (sessionDatas : list Session).

(** The world outside the service: how many times it has been consulted, and
    the database writes issued so far. *)
Record world : Type := mkWorld { ticks : nat; dbcalls : list dbcall }.

(** The runtime and the vendor SDK; every answer may depend on the world. *)
Record env : Type := mkEnv {
  browser : bool;
  clock : world -> Z;
  toISOString : Z -> outcome string;
  deviceInfo : world -> outcome string;
  permissions_granted : world -> outcome bool;
  probe_position : world -> outcome bool;
  locate : world -> outcome (option Location);
  getDatabaseInstance : world -> outcome unit;
  ref : world -> string -> outcome string;
  onValue : world -> string -> outcome nat;
  get_ : world -> string -> outcome SessionsSnapshot;
  set_ : world -> string -> list Session -> outcome unit;
  setInterval : world -> nat
}.

Definition P (A : Type) : Type := t * world -> outcome A * (t * world).

#[export] Instance P_ret : MRet P := fun A a s => (Returned a, s).
#[export] Instance P_bind : MBind P := fun A B f m s =>
  match m s with
  | (Returned a, s') => f a s'
  | (Thrown e, s') => (Thrown e, s')
  end.

Definition throw {A} (e : obj) : P A := fun s => (Thrown e, s).

(** [try { body } catch (error) { handler }] *)
Definition try_catch {A} (body : P A) (handler : obj -> P A) : P A := fun s =>
  match body s with
  | (Returned a, s') => (Returned a, s')
  | (Thrown e, s') => handler e s'
  end.

(** [... finally { fin }] *)
Definition finally {A} (body : P A) (fin : P unit) : P A := fun s =>
  match body s with
  | (r, s') =>
      match fin s' with
      | (Returned _, s'') => (r, s'')
      | (Thrown e, s'') => (Thrown e, s'')
      end
  end.

Definition gets {A} (f : t -> A) : P A := fun s => (Returned (f (fst s)), s).
Definition modify (f : t -> t) : P unit := fun s => (Returned (), (f (fst s), snd s)).

Definition tick (w : world) : world := {| ticks := S (ticks w); dbcalls := dbcalls w |}.

(** Consult the world. *)
Definition ask {A} (f : world -> outcome A) : P A :=
  fun s => (f (snd s), (fst s, tick (snd s))).
(** Write to the database: logged, then answered. *)
Definition write (c : dbcall) (f : world -> outcome unit) : P unit :=
  fun s => (f (snd s),
            (fst s, {| ticks := S (ticks (snd s)); dbcalls := dbcalls (snd s) ++ [c] |})).

(** [new Error(message)] *)
Definition Error (msg : string) : obj := {[ "message" := VStr msg ]}.
(** The TypeError of reading [uid] of [null]. *)
Definition TypeError_uid : obj :=
  {[ "name" := VStr "TypeError"; "message" := VStr "Cannot read properties of null" ]}.

Definition set_error (e : obj) (s : t) : t :=
  {| connectedListener := connectedListener s; locationWatcher := locationWatcher s;
     currentUser := currentUser s; eventListeners := eventListeners s;
     config := config s; initialized := initialized s;
     locationConsent := locationConsent s; _currentSession := _currentSession s;
     _sessions := _sessions s; _status := _status s; _loading := _loading s;
     _error := Some e |}.

Definition set_loading (b : bool) (s : t) : t :=
  {| connectedListener := connectedListener s; locationWatcher := locationWatcher s;
     currentUser := currentUser s; eventListeners := eventListeners s;
     config := config s; initialized := initialized s;
     locationConsent := locationConsent s; _currentSession := _currentSession s;
     _sessions := _sessions s; _status := _status s; _loading := b;
     _error := _error s |}.

Definition set_locationConsent (b : bool) (s : t) : t :=
  {| connectedListener := connectedListener s; locationWatcher := locationWatcher s;
     currentUser := currentUser s; eventListeners := eventListeners s;
     config := config s; initialized := initialized s;
     locationConsent := b; _currentSession := _currentSession s;
     _sessions := _sessions s; _status := _status s; _loading := _loading s;
     _error := _error s |}.

Definition set_initialized (b : bool) (s : t) : t :=
  {| connectedListener := connectedListener s; locationWatcher := locationWatcher s;
     currentUser := currentUser s; eventListeners := eventListeners s;
     config := config s; initialized := b;
     locationConsent := locationConsent s; _currentSession := _currentSession s;
     _sessions := _sessions s; _status := _status s; _loading := _loading s;
     _error := _error s |}.

Definition set_connectedListener (h : nat) (s : t) : t :=
  {| connectedListener := Some h; locationWatcher := locationWatcher s;
     currentUser := currentUser s; eventListeners := eventListeners s;
     config := config s; initialized := initialized s;
     locationConsent := locationConsent s; _currentSession := _currentSession s;
     _sessions := _sessions s; _status := _status s; _loading := _loading s;
     _error := _error s |}.

Definition set_locationWatcher (h : nat) (s : t) : t :=
  {| connectedListener := connectedListener s; locationWatcher := Some h;
     currentUser := currentUser s; eventListeners := eventListeners s;
     config := config s; initialized := initialized s;
     locationConsent := locationConsent s; _currentSession := _currentSession s;
     _sessions := _sessions s; _status := _status s; _loading := _loading s;
     _error := _error s |}.

(** [this._loading = true; this.currentUser = user; this.config = {...}] *)
Definition begin_initialize (user : option User) (arg : option PresenceConfig) (s : t) : t :=
  {| connectedListener := connectedListener s; locationWatcher := locationWatcher s;
     currentUser := user; eventListeners := eventListeners s;
     config := merge_config (config s) arg; initialized := initialized s;
     locationConsent := locationConsent s; _currentSession := _currentSession s;
     _sessions := _sessions s; _status := _status s; _loading := true;
     _error := _error s |}.

(** The three assignments that end the [try] block of [setPresence]. *)
Definition publish (sessionDatas : list Session) (current : option Session)
    (st : Status) (s : t) : t :=
  {| connectedListener := connectedListener s; locationWatcher := locationWatcher s;
     currentUser := currentUser s; eventListeners := eventListeners s;
     config := config s; initialized := initialized s;
     locationConsent := locationConsent s; _currentSession := current;
     _sessions := sessionDatas; _status := st; _loading := _loading s;
     _error := _error s |}.

Variable E : env.

Fixpoint call_all (ls : list (PresenceEvent -> outcome unit)) (ev : PresenceEvent)
    : outcome unit :=
  match ls with
  | [] => Returned ()
  | callback :: rest =>
      match callback ev with
      | Returned _ => call_all rest ev
      | Thrown e => Thrown e
      end
  end.

(** [this.eventListeners.forEach(callback => callback(event))] *)
Definition emitEvent (ev : PresenceEvent) : P unit :=
  fun s => (call_all (eventListeners (fst s)) ev, s).

(** [Date.now()] *)
Definition now : P Z := ask (λ w, Returned (clock E w)).
(** [new Date().toISOString()] *)
Definition iso_now : P string := n ← now; ask (λ _, toISOString E n).

Definition getDeviceInfo : P string := ask (deviceInfo E).

Definition geo_enabled (c : Config) : bool :=
  match geolocation c with Some g => enabled g | None => false end.
Definition geo_requireConsent (c : Config) : bool :=
  match geolocation c with Some g => requireConsent g | None => false end.
Definition geo_is_browser (c : Config) : bool :=
  match geolocation c with
  | Some g => match geo_type g with browser_geo => true | _ => false end
  | None => false
  end.

Definition requestLocationConsent : P bool :=
  c ← gets config;
  if negb (geo_enabled c) then mret false
  else
    try_catch
      (if geo_is_browser c then
         granted ← ask (permissions_granted E);
         if granted : bool then _ ← modify (set_locationConsent true); mret true
         else
           result ← ask (probe_position E);
           _ ← modify (set_locationConsent result);
           mret result
       else mret true)
      (λ _, mret false).

(** The gate is the wrapper's; the position itself is the runtime's answer. *)
Definition getLocation : P (option Location) :=
  c ← gets config;
  consent ← gets locationConsent;
  if negb (geo_enabled c) || (geo_requireConsent c && negb consent) then mret None
  else ask (locate E).

Definition initializePresence : P unit :=
  _ ← ask (getDatabaseInstance E);
  connectedRef ← ask (λ w, ref E w ".info/connected");
  h ← ask (λ w, onValue E w connectedRef);
  modify (set_connectedListener h).

Definition startLocationWatcher : P unit :=
  w ← gets locationWatcher;
  match w with
  | Some _ => mret ()
  | None => h ← ask (λ w, Returned (setInterval E w)); modify (set_locationWatcher h)
  end.

(** The [catch] clause shared by [initialize] and [setPresence]. *)
Definition store_and_rethrow {A} (error : obj) : P A :=
  _ ← modify (set_error error);
  ts ← now;
  _ ← emitEvent (ErrorEvent error ts);
  throw error.

(** The [try] block of [initialize]. *)
Definition initialize_body (user : option User) (arg : option PresenceConfig) : P unit :=
  if negb (browser E) then
    throw (Error "Presence service can only be initialized in browser environment")
  else
    already ← gets initialized;
    if already : bool then mret ()
    else
      _ ← modify (begin_initialize user arg);
      c ← gets config;
      _ ← (if geo_enabled c && geo_requireConsent c
           then _ ← requestLocationConsent; mret ()
           else mret ());
      _ ← initializePresence;
      _ ← modify (set_initialized true);
      consent ← gets locationConsent;
      _ ← (if geo_enabled c && (negb (geo_requireConsent c) || consent)
           then startLocationWatcher
           else mret ());
      userId ← match user with
               | Some u => mret (user_uid u)
               | None => throw TypeError_uid
               end;
      ts ← now;
      emitEvent (InitEvent userId ts).

Definition initialize (user : option User) (arg : option PresenceConfig) : P unit :=
  finally (try_catch (initialize_body user arg) store_and_rethrow)
          (modify (set_loading false)).

(** [session.uid === sessionId], for [findIndex] and [find]. *)
Definition has_uid (sessionId : string) (session : Session) : Prop := uid session = sessionId.
#[export] Instance has_uid_dec sessionId session : Decision (has_uid sessionId session).
Proof. unfold has_uid. apply _. Defined.

(** [{ ...session, status, lastSeen, ...(location && { location }) }] *)
Definition refresh (session : Session) (st : Status) (seen : string)
    (loc : option Location) : Session :=
  {| uid := uid session; userId := userId session; deviceId := deviceId session;
     status := st; createdAt := createdAt session; lastSeen := seen;
     location := match loc with Some l => Some l | None => location session end |}.

(** [session.lastSeen >= cutoffTime] on strings: code-unit order. *)
Definition not_stale (cutoffTime : string) (session : Session) : bool :=
  String.leb cutoffTime (lastSeen session).

Definition new_session (sessionId : string) (user : User) (device : string)
    (st : Status) (created seen : string) (loc : option Location) : Session :=
  {| uid := sessionId; userId := user_uid user; deviceId := device; status := st;
     createdAt := created; lastSeen := seen; location := loc |}.

(** The [if (userSessionsSnap.exists()) ... else ...] block of [setPresence]. *)
Definition merge_session (userSessionsSnap : SessionsSnapshot) (sessionId : string)
    (user : User) (device : string) (st : Status) (loc : option Location)
    : P (list Session) :=
  match userSessionsSnap with
  | Some val =>
      let sessionDatas := default [] val in
      match list_find (has_uid sessionId) sessionDatas with
      | Some (sessionIndex, existing) =>
          seen ← iso_now;
          mret (<[sessionIndex := refresh existing st seen loc]> sessionDatas)
      | None =>
          created ← iso_now;
          seen ← iso_now;
          mret (sessionDatas ++ [new_session sessionId user device st created seen loc])
      end
  | None =>
      created ← iso_now;
      seen ← iso_now;
      mret [new_session sessionId user device st created seen loc]
  end.

(** The [// Clean up stale sessions] block of [setPresence]. *)
Definition drop_stale (sessionDatas : list Session) : P (list Session) :=
  c ← gets config;
  match ttl_configured c with
  | Some ttl =>
      n ← now;
      cutoffTime ← ask (λ _, toISOString E (n - ttl)%Z);
      mret (List.filter (not_stale cutoffTime) sessionDatas)
  | None => mret sessionDatas
  end.

Definition session_id (user : User) (device : string) : string :=
  String.append (user_uid user) (String.append "_" device).

(** The [try] block of [setPresence]. *)
Definition setPresence_body (st : Status) : P unit :=
  cu ← gets currentUser;
  match cu with
  | None => throw (Error "No authenticated user found")
  | Some user =>
      _ ← ask (getDatabaseInstance E);
      userSessionsRef ← ask (λ w, ref E w (String.append "sessions/" (user_uid user)));
      device ← getDeviceInfo;
      let sessionId := session_id user device in
      loc ← getLocation;
      userSessionsSnap ← ask (λ w, get_ E w userSessionsRef);
      sessionDatas ← merge_session userSessionsSnap sessionId user device st loc;
      sessionDatas ← drop_stale sessionDatas;
      _ ← write (DbSet userSessionsRef sessionDatas)
                (λ w, set_ E w userSessionsRef sessionDatas);
      _ ← modify (publish sessionDatas
                    (snd <$> list_find (has_uid sessionId) sessionDatas) st);
      ts ← now;
      emitEvent (StatusChangeEvent st sessionId loc ts)
  end.

Definition setPresence (st : Status) : P unit :=
  try_catch (setPresence_body st) store_and_rethrow.

End Service.

End PresenceService.

(** * Readings of the specification and sample inputs *)

Module SubscriptionSpec.

(** The reading of "the document's own fields augmented with id and path" under
    which the synthetic properties are the document id and the reference path. *)
Definition augmented_with_id_and_path
    (doc : FirekitCollectionGroup.QueryDocumentSnapshot) : obj :=
  with_prop (with_prop (FirekitCollectionGroup.doc_data doc)
                       "id" (VStr (FirekitCollectionGroup.doc_id doc)))
            "path" (VStr (ref_path (FirekitCollectionGroup.doc_ref doc))).

(** A task document that stores an [id] field of its own. *)
Definition task_with_stored_id : FirekitCollectionGroup.QueryDocumentSnapshot :=
  FirekitCollectionGroup.mkQDoc "a1" (mkDocRef "a1" "lists/l1/tasks/a1")
    {[ "id" := VStr "legacy-7"; "title" := VStr "water plants" ]}.

(** How one projected object relates to the document it comes from. *)
Definition projects (doc : FirekitCollectionGroup.QueryDocumentSnapshot) (o : obj) : Prop :=
  let own := FirekitCollectionGroup.doc_data doc in
  (∀ k x, own !! k = Some x → o !! k = Some x) ∧
  (own !! "id" = None → o !! "id" = Some (VStr (FirekitCollectionGroup.doc_id doc))) ∧
  (own !! "path" = None →
     o !! "path" = Some (VStr (ref_path (FirekitCollectionGroup.doc_ref doc)))) ∧
  (∀ k, k ≠ "id" → k ≠ "path" → o !! k = own !! k).

End SubscriptionSpec.

Module MutationSpec.

Import FirekitDocumentMutations.

(** A call of one of the five mutation methods. *)
Inductive request : Type :=
  | AddReq (collectionPath : string) (data : obj) (options : MutationOptions)
  | SetReq (path : string) (data : obj) (options : MutationOptions)
  | UpdateReq (path : string) (data : obj) (options : MutationOptions)
  | DeleteReq (path : string)
  | GetDocReq (path : string).

Definition perform (v : sdk) (uid : value) (req : request) : M MutationResponse :=
  match req with
  | AddReq collectionPath data options => add v uid collectionPath data options
  | SetReq path data options => set v uid path data options
  | UpdateReq path data options => update v uid path data options
  | DeleteReq path => delete v path
  | GetDocReq path => getDoc_ v path
  end.

(** The [try] block of each method. *)
Definition body (v : sdk) (uid : value) (req : request) : M MutationResponse :=
  match req with
  | AddReq collectionPath data options => add_body v uid collectionPath data options
  | SetReq path data options => set_body v uid path data options
  | UpdateReq path data options => update_body v uid path data options
  | DeleteReq path => delete_body v path
  | GetDocReq path => getDoc_body v path
  end.

(** The three writing methods. *)
Inductive write_kind : Type := ViaAdd | ViaSet | ViaUpdate.

Definition write_request (k : write_kind) (path : string) (data : obj)
    (options : MutationOptions) : request :=
  match k with
  | ViaAdd => AddReq path data options
  | ViaSet => SetReq path data options
  | ViaUpdate => UpdateReq path data options
  end.

(** [e] is what some call of the vendor SDK threw. *)
Definition thrown_by_sdk (v : sdk) (e : obj) : Prop :=
  (∃ h, getDbInstance v h = Thrown e) ∨
  (∃ h p, collection v h p = Thrown e) ∨
  (∃ h p, doc v h p = Thrown e) ∨
  (∃ h c i, doc_in v h c i = Thrown e) ∨
  (∃ h c d, addDoc v h c d = Thrown e) ∨
  (∃ h r d, setDoc v h r d = Thrown e) ∨
  (∃ h r d, updateDoc v h r d = Thrown e) ∨
  (∃ h r, deleteDoc v h r = Thrown e) ∨
  (∃ h r, getDoc v h r = Thrown e).

(** [docId] is the id of the document the request addresses, as the vendor
    resolved it. *)
Definition target_id (v : sdk) (req : request) (docId : string) : Prop :=
  match req with
  | AddReq _ data options =>
      match customId_given options with
      | Some cid => ∃ h c r, doc_in v h c (Some cid) = Returned r ∧ docId = ref_id r
      | None => ∃ h c d r, addDoc v h c d = Returned r ∧ docId = ref_id r
      end
  | SetReq path _ _ =>
      if includes "/" path
      then ∃ h r, doc v h path = Returned r ∧ docId = ref_id r
      else ∃ h c i r, doc_in v h c i = Returned r ∧ docId = ref_id r
  | UpdateReq path _ _ | DeleteReq path =>
      ∃ h r, doc v h path = Returned r ∧ docId = ref_id r
  | GetDocReq path =>
      ∃ h r h' s, doc v h path = Returned r ∧ getDoc v h' r = Returned s ∧
                  docId = snap_id s
  end.

(** The bookkeeping fields of [getTimestampData], as name/value pairs. *)
Definition stamps (uid : value) (isNew : bool) : list (string * value) :=
  [("updatedAt", VServerTimestamp); ("updatedBy", uid)] ++
  (if isNew then [("createdAt", VServerTimestamp); ("createdBy", uid)] else []).

Fixpoint assoc (k : string) (l : list (string * value)) : option value :=
  match l with
  | [] => None
  | (k', x) :: rest => if String.eqb k k' then Some x else assoc k rest
  end.

(** [payload] is [data] with the fields [extras] laid over it: a field named
    in [extras] has the value given there, every other field is as in [data],
    and there is no further field. *)
Definition overlaid (data : obj) (extras : list (string * value)) (payload : obj) : Prop :=
  ∀ k, payload !! k = match assoc k extras with Some x => Some x | None => data !! k end.

(** What one store call carries, given the caller's [data]. *)
Definition write_described (uid : value) (data : obj) (c : call) : Prop :=
  match c with
  | AddDoc _ payload => overlaid data (stamps uid true) payload
  | SetDoc r payload _ =>
      overlaid data (stamps uid true ++ [("id", VStr (ref_id r))]) payload
  | UpdateDoc _ payload => overlaid data (stamps uid false) payload
  | DeleteDoc _ | GetDoc _ => False
  end.

(** Which store calls a request may issue. *)
Definition write_of (req : request) (c : call) : Prop :=
  match req, c with
  | AddReq _ _ _, (AddDoc _ _ | SetDoc _ _ _) => True
  | SetReq _ _ _, SetDoc _ _ _ => True
  | UpdateReq _ _ _, UpdateDoc _ _ => True
  | _, _ => False
  end.

(** The store calls of a writing request, with timestamps on: the log grows
    by calls of the request's kind, each carrying the described payload. *)
Definition payloads_described (v : sdk) (uid : value) (req : request) (data : obj)
    (h : list call) : Prop :=
  ∃ new, snd (perform v uid req h) = h ++ new ∧
         Forall (λ c, write_of req c ∧ write_described uid data c) new.

(** The payload as the specification words it: the caller's data, plus [id]
    (the reference's id), [updatedAt] and [updatedBy], plus [createdAt] and
    [createdBy] when written through [add]; every caller field unchanged and
    no other field. *)
Definition payload_as_claimed (viaAdd : bool) (uid : value) (data : obj)
    (docId : string) (payload : obj) : Prop :=
  payload !! "id" = Some (VStr docId) ∧
  payload !! "updatedAt" = Some VServerTimestamp ∧
  payload !! "updatedBy" = Some uid ∧
  (viaAdd = true →
     payload !! "createdAt" = Some VServerTimestamp ∧ payload !! "createdBy" = Some uid) ∧
  (∀ k x, data !! k = Some x → payload !! k = Some x) ∧
  (∀ k, is_Some (payload !! k) →
     is_Some (data !! k) ∨
     k ∈ ["id"; "updatedAt"; "updatedBy"] ++
         (if viaAdd then ["createdAt"; "createdBy"] else [])).

(** Sample inputs. *)
Definition jane : obj := {[ "name" := VStr "Jane Doe" ]}.
Definition signed_in : value := VStr "u1".

(** A vendor that answers every call; a document reference takes its id from
    the last path segment given, [addDoc] invents the id ["auto1"]. *)
Definition last_segment (path : string) : string := List.last (split "/" path) "".
Definition sdk_ok : sdk :=
  {| getDbInstance := λ _, Returned ();
     collection := λ _ p, Returned p;
     doc := λ _ p, Returned (mkDocRef (last_segment p) p);
     doc_in := λ _ c i, Returned (mkDocRef (default "auto0" i) c);
     addDoc := λ _ c _, Returned (mkDocRef "auto1" c);
     setDoc := λ _ _ _, Returned ();
     updateDoc := λ _ _ _, Returned ();
     deleteDoc := λ _ _, Returned ();
     getDoc := λ _ r, Returned (mkSnap (ref_id r) (Some jane)) |}.

(** The same vendor over a store that holds no document. *)
Definition sdk_empty_store : sdk :=
  {| getDbInstance := getDbInstance sdk_ok; collection := collection sdk_ok;
     doc := doc sdk_ok; doc_in := doc_in sdk_ok; addDoc := addDoc sdk_ok;
     setDoc := setDoc sdk_ok; updateDoc := updateDoc sdk_ok;
     deleteDoc := deleteDoc sdk_ok;
     getDoc := λ _ r, Returned (mkSnap (ref_id r) None) |}.

(** The same vendor with reads failing. *)
Definition unavailable : obj :=
  {[ "code" := VStr "unavailable"; "message" := VStr "The service is unavailable" ]}.
Definition sdk_reads_fail : sdk :=
  {| getDbInstance := getDbInstance sdk_ok; collection := collection sdk_ok;
     doc := doc sdk_ok; doc_in := doc_in sdk_ok; addDoc := addDoc sdk_ok;
     setDoc := setDoc sdk_ok; updateDoc := updateDoc sdk_ok;
     deleteDoc := deleteDoc sdk_ok;
     getDoc := λ _ _, Thrown unavailable |}.

(** The same vendor with deletes failing with a plain [Error], which carries
    a message and no code. *)
Definition boom : obj := {[ "message" := VStr "boom" ]}.
Definition sdk_deletes_fail : sdk :=
  {| getDbInstance := getDbInstance sdk_ok; collection := collection sdk_ok;
     doc := doc sdk_ok; doc_in := doc_in sdk_ok; addDoc := addDoc sdk_ok;
     setDoc := setDoc sdk_ok; updateDoc := updateDoc sdk_ok;
     deleteDoc := λ _ _, Thrown boom;
     getDoc := getDoc sdk_ok |}.

Definition d1 : DocumentReference := mkDocRef "d1" "users/d1".

End MutationSpec.

Module PresenceSpec.

Import PresenceService.

(** ** A rendering of [Date.prototype.toISOString] for the sample runtime

    Milliseconds since the epoch to [YYYY-MM-DDTHH:mm:ss.sssZ], for the years
    0 to 9999; outside that range the sample runtime throws. *)

Definition digit (n : Z) : ascii := ascii_of_nat (48 + Z.to_nat (n mod 10)).

Fixpoint digits (width : nat) (n : Z) (acc : string) : string :=
  match width with
  | O => acc
  | S w => digits w (n / 10) (String (digit n) acc)
  end.

Definition pad (width : nat) (n : Z) : string := digits width n EmptyString.

(** Year, month and day of a day number counted from 1970-01-01. *)
Definition civil_from_days (z : Z) : Z * Z * Z :=
  let z := (z + 719468)%Z in
  let era := (z / 146097)%Z in
  let doe := (z - era * 146097)%Z in
  let yoe := ((doe - doe / 1460 + doe / 36524 - doe / 146096) / 365)%Z in
  let doy := (doe - (365 * yoe + yoe / 4 - yoe / 100))%Z in
  let mp := ((5 * doy + 2) / 153)%Z in
  let d := (doy - (153 * mp + 2) / 5 + 1)%Z in
  let m := (if mp <? 10 then mp + 3 else mp - 9)%Z in
  let y := (yoe + era * 400 + (if m <=? 2 then 1 else 0))%Z in
  (y, m, d).

Definition RangeError : obj :=
  {[ "name" := VStr "RangeError"; "message" := VStr "Invalid time value" ]}.

Definition iso8601 (ms : Z) : outcome string :=
  let '(y, m, d) := civil_from_days (ms / 86400000) in
  let t := (ms mod 86400000)%Z in
  if ((0 <=? y) && (y <=? 9999))%Z then
    Returned
      (String.concat ""
         [pad 4 y; "-"; pad 2 m; "-"; pad 2 d; "T";
          pad 2 (t / 3600000); ":"; pad 2 (t / 60000 mod 60); ":";
          pad 2 (t / 1000 mod 60); "."; pad 3 (t mod 1000); "Z"])
  else Thrown RangeError.

(** Midnight, 1 January 2026 (UTC), in milliseconds. *)
Definition new_year_2026 : Z := 1767225600000.

(** ** Sample runtimes

    Locations are written as strings here.  The clock starts at
    [new_year_2026] and advances one millisecond each time the world is
    consulted; the database answers [get] with [snapshot]. *)
Definition sample_env (in_browser : bool) (snapshot : @SessionsSnapshot string)
    : @env string :=
  {| browser := in_browser;
     clock := λ w, (new_year_2026 + Z.of_nat (ticks w))%Z;
     toISOString := iso8601;
     deviceInfo := λ _, Returned "Chrome-Linuxx8664";
     permissions_granted := λ _, Returned false;
     probe_position := λ _, Returned false;
     locate := λ _, Returned None;
     getDatabaseInstance := λ _, Returned ();
     ref := λ _ p, Returned p;
     onValue := λ w _, Returned (ticks w);
     get_ := λ _ _, Returned snapshot;
     set_ := λ _ _ _, Returned ();
     setInterval := λ w, S (ticks w) |}.

Definition fresh_world : @world string := {| ticks := 0; dbcalls := [] |}.

Definition ann : User := mkUser "u1".
Definition ann_session_id : string := "u1_Chrome-Linuxx8664".

(** The service and the world once [initialize] has run for [ann] in a
    browser, over an empty database. *)
Definition after_initialize : @t string * @world string :=
  snd (initialize (sample_env true None) (Some ann) None (initial, fresh_world)).

(** Sessions found in the database: a phone last seen in the morning of
    31 December, and two entries that both carry this browser's session id. *)
Definition phone_session : SessionData string :=
  mkSession "u1_Safari-iPhone" "u1" "Safari-iPhone" away
            "2025-12-30T10:00:00.000Z" "2025-12-31T08:00:00.000Z" None.
Definition browser_session : SessionData string :=
  mkSession ann_session_id "u1" "Chrome-Linuxx8664" away
            "2025-12-31T22:00:00.000Z" "2025-12-31T23:40:00.000Z" None.
Definition browser_session_twin : SessionData string :=
  mkSession ann_session_id "u1" "Chrome-Linuxx8664" offline
            "2025-12-31T23:00:00.000Z" "2025-12-31T23:45:00.000Z" None.

(** [browser_session] as [setPresence online] rewrites it after
    [after_initialize]. *)
Definition browser_session_online : SessionData string :=
  mkSession ann_session_id "u1" "Chrome-Linuxx8664" online
            "2025-12-31T22:00:00.000Z" "2026-01-01T00:00:00.008Z" None.

(** A database that holds the two entries with the same session id, and one
    that holds distinct ids. *)
Definition env_with_twins : @env string :=
  sample_env true (Some (Some [phone_session; browser_session; browser_session_twin])).
Definition env_two_devices : @env string :=
  sample_env true (Some (Some [phone_session; browser_session])).

Section Readings.

Context {Location : Type}.

(** A computation that touches neither the fields nor the database. *)
Definition quiet {A} (m : @P Location A) : Prop :=
  ∀ s r s', m s = (r, s') → fst s' = fst s ∧ dbcalls (snd s') = dbcalls (snd s).

(** The listeners take the news of [e] without throwing. *)
Definition told_quietly (E : @env Location) (s : @t Location * @world Location)
    (e : obj) : Prop :=
  call_all (eventListeners (fst s)) (ErrorEvent e (clock E (snd s))) = Returned ().

(** The array a snapshot carries, [[]] when there is none. *)
Definition stored (snapshot : @SessionsSnapshot Location) : list (SessionData Location) :=
  match snapshot with
  | Some (Some sessionDatas) => sessionDatas
  | _ => []
  end.

(** [current] is the one session of [l] whose uid is [sessionId], or null
    when [l] has no such session. *)
Definition the_unique_session (sessionId : string) (l : list (SessionData Location))
    (current : option (SessionData Location)) : Prop :=
  match current with
  | Some x => x ∈ l ∧ uid x = sessionId ∧ ∀ y, y ∈ l → uid y = sessionId → y = x
  | None => ∀ y, y ∈ l → uid y ≠ sessionId
  end.

(** [current] is the first session of [l] whose uid is [sessionId], or null
    when [l] has no such session. *)
Definition the_first_session (sessionId : string) (l : list (SessionData Location))
    (current : option (SessionData Location)) : Prop :=
  match current with
  | Some x => ∃ i, l !! i = Some x ∧ uid x = sessionId ∧
                   ∀ j y, l !! j = Some y → j < i → uid y ≠ sessionId
  | None => ∀ y, y ∈ l → uid y ≠ sessionId
  end.

(** What holds once [setPresence] has completed from [s] into [s'] with the
    time-to-live [ttl]. *)
Definition sessions_published (E : @env Location) (ttl : Z)
    (s s' : @t Location * @world Location) : Prop :=
  ∃ user device cutoffTime userSessionsRef snapshot,
    currentUser (fst s) = Some user ∧
    (∃ w, deviceInfo E w = Returned device) ∧
    (∃ w, toISOString E (clock E w - ttl) = Returned cutoffTime) ∧
    (∃ w, get_ E w userSessionsRef = Returned snapshot) ∧
    Forall (λ x, String.leb cutoffTime (lastSeen x) = true) (sessions (fst s')) ∧
    dbcalls (snd s') = dbcalls (snd s) ++ [DbSet userSessionsRef (sessions (fst s'))] ∧
    the_first_session (session_id user device) (sessions (fst s'))
                      (currentSession (fst s')) ∧
    (NoDup (uid <$> stored snapshot) →
       NoDup (uid <$> sessions (fst s')) ∧
       the_unique_session (session_id user device) (sessions (fst s'))
                          (currentSession (fst s'))).

End Readings.

End PresenceSpec.

From stdpp Require Import pretty.

(** * Further code of the cited modules *)

(** ** FirekitUser (auth/user.svelte.js), whose [uid] the mutations stamp *)

Module FirekitUser.

(** The vendor's user record, as far as the derived fields read it. *)
Record User : Type := mkUser {
  user_uid : string;
  user_email : value;
  user_displayName : value;
  user_photoURL : value;
  user_emailVerified : value
}.

(** Instance fields; [None] is [undefined], the value [$state()] starts with. *)
Record t : Type := mk {
  _user : option User;
  _initialized : option bool;
  _isLoggedIn : option bool
}.

Definition init : t := {| _user := None; _initialized := None; _isLoggedIn := None |}.

(** The callback passed to [onAuthStateChanged]; the vendor hands it the user,
    or [null] ([None]) when nobody is signed in. *)
Definition on_auth_state_changed (st : t) (user : option User) : t :=
  match user with
  | Some u => {| _user := Some u; _isLoggedIn := Some true; _initialized := Some true |}
  | None => {| _user := _user st; _isLoggedIn := Some false; _initialized := Some true |}
  end.

Definition run (st : t) (evs : list (option User)) : t :=
  fold_left on_auth_state_changed evs st.

(** Getters and derived fields: [this._user?.uid] and the like. *)
Definition user (st : t) : option User := _user st.
Definition initialized (st : t) : option bool := _initialized st.
Definition isLoggedIn (st : t) : option bool := _isLoggedIn st.
Definition uid (st : t) : value :=
  match _user st with Some u => VStr (user_uid u) | None => VUndefined end.
Definition email (st : t) : value :=
  match _user st with Some u => user_email u | None => VUndefined end.

(** The vendor calls of the update methods. *)
Inductive call : Type :=
  | UpdateEmail (user : User) (email : string)
  | UpdatePassword (user : User) (password : string)
  | UpdateProfile (user : User) (field : string) (v : string).

Record sdk : Type := mkSdk {
  updateEmail : list call -> User -> string -> outcome unit;
  updatePassword : list call -> User -> string -> outcome unit;
  updateProfile : list call -> User -> string -> string -> outcome unit
}.

Definition no_user : obj := {[ "message" := VStr "No authenticated user" ]}.

(** Each method: [if (!this._user) throw new Error(...)], then the vendor call
    on [this._user], awaited outside any [try]. *)
Definition updateEmailUser (v : sdk) (st : t) (email : string) (h : list call)
    : outcome unit * list call :=
  match _user st with
  | None => (Thrown no_user, h)
  | Some u => (updateEmail v h u email, h ++ [UpdateEmail u email])
  end.

Definition updatePassword_ (v : sdk) (st : t) (password : string) (h : list call)
    : outcome unit * list call :=
  match _user st with
  | None => (Thrown no_user, h)
  | Some u => (updatePassword v h u password, h ++ [UpdatePassword u password])
  end.

Definition updateDisplayName (v : sdk) (st : t) (displayName : string) (h : list call)
    : outcome unit * list call :=
  match _user st with
  | None => (Thrown no_user, h)
  | Some u => (updateProfile v h u "displayName" displayName,
               h ++ [UpdateProfile u "displayName" displayName])
  end.

Definition updatePhotoURL (v : sdk) (st : t) (photoURL : string) (h : list call)
    : outcome unit * list call :=
  match _user st with
  | None => (Thrown no_user, h)
  | Some u => (updateProfile v h u "photoURL" photoURL,
               h ++ [UpdateProfile u "photoURL" photoURL])
  end.

(** The user of the last event that carried one. *)
Definition last_user (evs : list (option User)) : option User :=
  last (omap id evs).

End FirekitUser.

Module MutationSpec2.

Import FirekitDocumentMutations MutationSpec.

(** The store calls one request can add to the log.  [h] is the log before
    the request; [addDoc]'s reference is the one [setDoc] then writes to. *)
Definition calls_of (v : sdk) (req : request) (h : list call) (new : list call) : Prop :=
  match req with
  | AddReq _ _ options =>
      match customId_given options with
      | Some _ => new = [] ∨ ∃ r p, new = [SetDoc r p None]
      | None =>
          new = [] ∨
          (∃ c p, new = [AddDoc c p]) ∨
          (∃ c p r p', new = [AddDoc c p; SetDoc r p' None] ∧
                       addDoc v h c p = Returned r)
      end
  | SetReq _ _ options => new = [] ∨ ∃ r p, new = [SetDoc r p (Some (merge options))]
  | UpdateReq _ _ _ => new = [] ∨ ∃ r p, new = [UpdateDoc r p]
  | DeleteReq _ => new = [] ∨ ∃ r, new = [DeleteDoc r]
  | GetDocReq _ => new = [] ∨ ∃ r, new = [GetDoc r]
  end.

(** The last store call of a successful write, carrying [payload] to [r]. *)
Definition final_write (k : write_kind) (options : MutationOptions)
    (r : DocumentReference) (payload : obj) : call :=
  match k with
  | ViaAdd => SetDoc r payload None
  | ViaSet => SetDoc r payload (Some (merge options))
  | ViaUpdate => UpdateDoc r payload
  end.

(** What one store call carries when timestamps are off. *)
Definition write_plain (data : obj) (c : call) : Prop :=
  match c with
  | AddDoc _ payload | UpdateDoc _ payload => payload = data
  | SetDoc r payload _ => overlaid data [("id", VStr (ref_id r))] payload
  | DeleteDoc _ | GetDoc _ => False
  end.

Definition payloads_plain (v : sdk) (uid : value) (req : request) (data : obj)
    (h : list call) : Prop :=
  ∃ new, snd (perform v uid req h) = h ++ new ∧
         Forall (λ c, write_of req c ∧ write_plain data c) new.

(** The payload a store call carries, if any. *)
Definition payload_of (c : call) : option obj :=
  match c with
  | AddDoc _ payload | SetDoc _ payload _ | UpdateDoc _ payload => Some payload
  | DeleteDoc _ | GetDoc _ => None
  end.

(** A vendor whose [addDoc] works and whose [setDoc] fails. *)
Definition quota : obj :=
  {[ "code" := VStr "resource-exhausted"; "message" := VStr "Quota exceeded" ]}.
Definition sdk_sets_fail : sdk :=
  {| getDbInstance := getDbInstance sdk_ok; collection := collection sdk_ok;
     doc := doc sdk_ok; doc_in := doc_in sdk_ok; addDoc := addDoc sdk_ok;
     setDoc := λ _ _ _, Thrown quota; updateDoc := updateDoc sdk_ok;
     deleteDoc := deleteDoc sdk_ok;
     getDoc := getDoc sdk_ok |}.

Definition no_timestamps : MutationOptions :=
  {| timestamps := Some false; merge := None; customId := None |}.

End MutationSpec2.

(** ** The subscription wrappers over their whole life *)

Module WrapperLife.

(** [get ref()] of FirekitDoc: throws while there is no reference. *)
Definition doc_ref (st : FirekitDoc.t) : outcome DocumentReference :=
  match FirekitDoc.docRef st with
  | None => Thrown {[ "message" := VStr "Document reference is not available yet." ]}
  | Some r => Returned r
  end.

(** [typeof ref === "string" ? doc(firestore, ref) : ref] *)
Definition resolve (v : FirekitDoc.sdk) (ref : string + DocumentReference)
    : outcome DocumentReference :=
  match ref with inl p => FirekitDoc.doc v p | inr r => Returned r end.

(** The snapshot of the last snapshot event, if any. *)
Definition last_doc_snapshot (evs : list FirekitDoc.event)
    : option FirekitDoc.DocumentSnapshot :=
  last (omap (λ ev, match ev with
                    | FirekitDoc.Snapshot s => Some s
                    | FirekitDoc.Error _ => None
                    end) evs).

(** What a snapshot leaves in [_data]. *)
Definition exposed (s : FirekitDoc.DocumentSnapshot) : option obj :=
  (λ d : obj, <["id" := VStr (FirekitDoc.snap_id s)]> d) <$> FirekitDoc.snap_data s.

(** FirekitCollectionGroup: what the vendor may deliver, and [get ref()]. *)
Inductive group_event : Type :=
  | GroupSnapshot (s : FirekitCollectionGroup.QuerySnapshot)
  | GroupError (e : obj).

Definition group_step (st : FirekitCollectionGroup.t) (ev : group_event)
    : FirekitCollectionGroup.t :=
  match ev with
  | GroupSnapshot s => FirekitCollectionGroup.on_snapshot st s
  | GroupError e => FirekitCollectionGroup.on_error st e
  end.

Definition group_run (st : FirekitCollectionGroup.t) (evs : list group_event)
    : FirekitCollectionGroup.t :=
  fold_left group_step evs st.

Definition group_ref (st : FirekitCollectionGroup.t) : outcome string :=
  match FirekitCollectionGroup.queryRef st with
  | None => Thrown {[ "message" := VStr "Query reference is not available" ]}
  | Some q => Returned q
  end.

Definition last_group_snapshot (evs : list group_event)
    : option FirekitCollectionGroup.QuerySnapshot :=
  last (omap (λ ev, match ev with
                    | GroupSnapshot s => Some s
                    | GroupError _ => None
                    end) evs).

(** FirekitRealtimeDB: what the vendor may deliver. *)
Inductive value_event : Type :=
  | Value (val : value)
  | ValueError (e : obj).

Definition value_step (st : FirekitRealtimeDB.t) (ev : value_event) : FirekitRealtimeDB.t :=
  match ev with
  | Value val => FirekitRealtimeDB.on_value st val
  | ValueError e => FirekitRealtimeDB.on_error st e
  end.

Definition value_run (st : FirekitRealtimeDB.t) (evs : list value_event)
    : FirekitRealtimeDB.t :=
  fold_left value_step evs st.

Definition last_value (evs : list value_event) : option value :=
  last (omap (λ ev, match ev with Value val => Some val | ValueError _ => None end) evs).

(** [dispose()] called [n] times in a row. *)
Definition dispose_times (n : nat) (st : FirekitRealtimeDB.t)
    (calls : list FirekitRealtimeDB.call) : FirekitRealtimeDB.t * list FirekitRealtimeDB.call :=
  Nat.iter n (λ x, FirekitRealtimeDB.dispose (fst x) (snd x)) (st, calls).

End WrapperLife.

(** ** FirekitRealtimeDB: push, set, update, remove *)

Module FirekitRealtimeWrites.

(** The reference [push(dbRef)] returns: where it points and its [key]
    ([None] for [null]). *)
Record NewRef : Type := mkNewRef { new_path : string; key : option string }.

Inductive call : Type :=
  | Push (ref : string)
  | SetAt (ref : string) (data : value)
  | UpdateAt (ref : string) (data : value)
  | RemoveAt (ref : string).

Record sdk : Type := mkSdk {
  push_ : list call -> string -> outcome NewRef;
  set_ : list call -> string -> value -> outcome unit;
  update_ : list call -> string -> value -> outcome unit;
  remove_ : list call -> string -> outcome unit
}.

(** [push(data)]: resolves to the new key, to [null] ([None]) without a
    reference; nothing is caught. *)
Definition push (v : sdk) (st : FirekitRealtimeDB.t) (data : value) (h : list call)
    : outcome (option string) * list call :=
  match FirekitRealtimeDB.dbRef st with
  | None => (Returned None, h)
  | Some dbRef =>
      match push_ v h dbRef with
      | Thrown e => (Thrown e, h ++ [Push dbRef])
      | Returned newRef =>
          let h := h ++ [Push dbRef] in
          match set_ v h (new_path newRef) data with
          | Thrown e => (Thrown e, h ++ [SetAt (new_path newRef) data])
          | Returned _ => (Returned (key newRef), h ++ [SetAt (new_path newRef) data])
          end
      end
  end.

Definition set (v : sdk) (st : FirekitRealtimeDB.t) (data : value) (h : list call)
    : outcome unit * list call :=
  match FirekitRealtimeDB.dbRef st with
  | None => (Returned (), h)
  | Some dbRef => (set_ v h dbRef data, h ++ [SetAt dbRef data])
  end.

Definition update (v : sdk) (st : FirekitRealtimeDB.t) (data : value) (h : list call)
    : outcome unit * list call :=
  match FirekitRealtimeDB.dbRef st with
  | None => (Returned (), h)
  | Some dbRef => (update_ v h dbRef data, h ++ [UpdateAt dbRef data])
  end.

Definition remove (v : sdk) (st : FirekitRealtimeDB.t) (h : list call)
    : outcome unit * list call :=
  match FirekitRealtimeDB.dbRef st with
  | None => (Returned (), h)
  | Some dbRef => (remove_ v h dbRef, h ++ [RemoveAt dbRef])
  end.

(** [get ref()] *)
Definition ref (st : FirekitRealtimeDB.t) : outcome string :=
  match FirekitRealtimeDB.dbRef st with
  | None => Thrown {[ "message" := VStr "Database reference is not available" ]}
  | Some r => Returned r
  end.

End FirekitRealtimeWrites.

(** ** firekitRealtimeList (realtime/realtime.svelte.js) *)

Module FirekitRealtimeList.

(** An object whose property order is observed through [Object.entries]:
    name/value pairs in insertion order.  The items are objects. *)
Abbreviation record := (list (string * obj)).

(** [acc[k] = item]: an existing property keeps its place, a new one goes last. *)
Fixpoint assign (acc : record) (k : string) (item : obj) : record :=
  match acc with
  | [] => [(k, item)]
  | (k', x) :: rest =>
      if String.eqb k' k then (k', item) :: rest else (k', x) :: assign rest k item
  end.

(** The template literal [`key${index}`]. *)
Definition key_of (index : nat) : string := String.append "key" (pretty index).

(** [startWith.reduce((acc, item, index) => { acc[`key${index}`] = item;
    return acc }, {})], from index [i] on. *)
Fixpoint reduce_from (i : nat) (acc : record) (startWith : list obj) : record :=
  match startWith with
  | [] => acc
  | item :: rest => reduce_from (S i) (assign acc (key_of i) item) rest
  end.

Definition startWithRecord (startWith : list obj) : record := reduce_from 0 [] startWith.

(** The record as the base class stores it. *)
Definition as_value (r : record) : value :=
  VObj (list_to_map (prod_map id VObj <$> r)).

(** [_list]: [this.data ? Object.entries(this.data).map(([key, value]) =>
    ({ id: key, ...value })) : []], for data that is such a record or null. *)
Definition _list (data : option record) : list obj :=
  match data with
  | Some d => map (λ kv, spread (with_prop ∅ "id" (VStr (fst kv))) (snd kv)) d
  | None => []
  end.

(** The wrapper before any snapshot: the base class constructed on the record. *)
Definition constructor (browser : bool) (v : FirekitRealtimeDB.sdk) (path : string)
    (startWith : list obj) (calls : list FirekitRealtimeDB.call)
    : FirekitRealtimeDB.t * list FirekitRealtimeDB.call :=
  FirekitRealtimeDB.constructor browser v path (as_value (startWithRecord startWith)) calls.

End FirekitRealtimeList.

(** ** PresenceService: the location watcher and [dispose] *)

Module PresenceMore.

Import PresenceService.

Section Service.

Context {Location : Type}.
Variable E : @env Location.
(** What calling the stored [connectedListener] (the vendor's unsubscribe
    function) answers. *)
Variable unsubscribe : @world Location -> nat -> outcome unit.

Definition clear_locationWatcher (s : @t Location) : @t Location :=
  {| connectedListener := connectedListener s; locationWatcher := None;
     currentUser := currentUser s; eventListeners := eventListeners s;
     config := config s; initialized := initialized s;
     locationConsent := locationConsent s; _currentSession := _currentSession s;
     _sessions := _sessions s; _status := _status s; _loading := _loading s;
     _error := _error s |}.

Definition clear_connectedListener (s : @t Location) : @t Location :=
  {| connectedListener := None; locationWatcher := locationWatcher s;
     currentUser := currentUser s; eventListeners := eventListeners s;
     config := config s; initialized := initialized s;
     locationConsent := locationConsent s; _currentSession := _currentSession s;
     _sessions := _sessions s; _status := _status s; _loading := _loading s;
     _error := _error s |}.

(** The six assignments of [dispose]. *)
Definition reset (s : @t Location) : @t Location :=
  {| connectedListener := connectedListener s; locationWatcher := locationWatcher s;
     currentUser := currentUser s; eventListeners := eventListeners s;
     config := config s; initialized := false;
     locationConsent := locationConsent s; _currentSession := None;
     _sessions := []; _status := offline; _loading := false;
     _error := None |}.

(** The callback [startLocationWatcher] hands to [setInterval]. *)
Definition watchLocation : @P Location unit :=
  loc ← getLocation E;
  current ← gets _currentSession;
  match loc, current with
  | Some l, Some _ =>
      st ← gets _status;
      _ ← setPresence E st;
      ts ← now E;
      emitEvent (LocationUpdateEvent l ts)
  | _, _ => mret ()
  end.

(** [clearInterval] answers nothing; the world is consulted all the same. *)
Definition stopLocationWatcher : @P Location unit :=
  w ← gets locationWatcher;
  match w with
  | Some _ => _ ← ask (λ _, Returned ()); modify clear_locationWatcher
  | None => mret ()
  end.

Definition dispose : @P Location unit :=
  _ ← stopLocationWatcher;
  l ← gets connectedListener;
  _ ← match l with
      | Some h => _ ← ask (λ w, unsubscribe w h); modify clear_connectedListener
      | None => mret ()
      end;
  _ ← modify reset;
  ts ← now E;
  emitEvent (DisconnectEvent ts).

End Service.

(** The fields [setPresence] and the watcher never assign. *)
Definition same_setup {Location : Type} (a b : @t Location) : Prop :=
  connectedListener b = connectedListener a ∧
  locationWatcher b = locationWatcher a ∧
  currentUser b = currentUser a ∧
  eventListeners b = eventListeners a ∧
  config b = config a ∧
  initialized b = initialized a ∧
  locationConsent b = locationConsent a ∧
  _loading b = _loading a.

(** A computation whose runs all relate the fields before and after by [R]. *)
Definition keeps {Location A : Type} (R : @t Location → @t Location → Prop)
    (m : @P Location A) : Prop :=
  ∀ s r s', m s = (r, s') → R (fst s) (fst s').

(** The database log grows by at most one write, to a reference the vendor
    gave for [path]. *)
Definition one_write_at_most {Location : Type} (E : @env Location) (path : string)
    (s s' : @t Location * @world Location) : Prop :=
  dbcalls (snd s') = dbcalls (snd s) ∨
  ∃ w userSessionsRef sessionDatas,
    ref E w path = Returned userSessionsRef ∧
    dbcalls (snd s') = dbcalls (snd s) ++ [DbSet userSessionsRef sessionDatas].

(** What holds once [setPresence] has completed from [s] into [s'] with no
    time-to-live configured: the current session is this device's, with the
    status asked for; every stored session of another device is still
    listed; the list grew by one exactly when this device was not in it. *)
Definition sessions_kept {Location : Type} (E : @env Location) (st : Status)
    (s s' : @t Location * @world Location) : Prop :=
  ∃ user device snapshot x,
    currentUser (fst s) = Some user ∧
    (∃ w, deviceInfo E w = Returned device) ∧
    (∃ w userSessionsRef, get_ E w userSessionsRef = Returned snapshot) ∧
    currentSession (fst s') = Some x ∧
    uid x = session_id user device ∧ status x = st ∧ _status (fst s') = st ∧
    (∀ y, y ∈ PresenceSpec.stored snapshot → uid y ≠ session_id user device →
          y ∈ sessions (fst s')) ∧
    length (sessions (fst s')) =
      if decide (session_id user device ∈ uid <$> PresenceSpec.stored snapshot)
      then length (PresenceSpec.stored snapshot)
      else S (length (PresenceSpec.stored snapshot)).

(** What holds once a first [initialize] has completed from [s] into [s']. *)
Definition initialized_for {Location : Type} (E : @env Location) (user : option User)
    (arg : option PresenceConfig) (s s' : @t Location * @world Location) : Prop :=
  browser E = true ∧
  ∃ u hd,
    user = Some u ∧ currentUser (fst s') = Some u ∧
    initialized (fst s') = true ∧ loading (fst s') = false ∧
    config (fst s') = merge_config (config (fst s)) arg ∧
    connectedListener (fst s') = Some hd ∧
    (∃ w w' r, ref E w ".info/connected" = Returned r ∧ onValue E w' r = Returned hd) ∧
    dbcalls (snd s') = dbcalls (snd s) ∧
    sessions (fst s') = sessions (fst s) ∧
    currentSession (fst s') = currentSession (fst s) ∧
    _status (fst s') = _status (fst s) ∧
    error (fst s') = error (fst s).

(** How a failed [setPresence] from [s] into [s'] leaves the exposed sessions:
    untouched, or written and published with a listener having thrown. *)
Definition sessions_after_failure {Location : Type} (st : Status)
    (s s' : @t Location * @world Location) : Prop :=
  (sessions (fst s') = sessions (fst s) ∧
   currentSession (fst s') = currentSession (fst s) ∧
   _status (fst s') = _status (fst s)) ∨
  (∃ userSessionsRef sessionDatas e0 ev,
     dbcalls (snd s') = dbcalls (snd s) ++ [DbSet userSessionsRef sessionDatas] ∧
     sessions (fst s') = sessionDatas ∧ _status (fst s') = st ∧
     error (fst s') = Some e0 ∧
     call_all (eventListeners (fst s)) ev = Thrown e0).

(** Sample inputs: a listener that throws, and a service that has it. *)
Definition deaf : obj := {[ "message" := VStr "listener failed" ]}.

Definition with_listeners {Location : Type}
    (ls : list (@PresenceEvent Location -> outcome unit)) (s : @t Location) : @t Location :=
  {| connectedListener := connectedListener s; locationWatcher := locationWatcher s;
     currentUser := currentUser s; eventListeners := ls;
     config := config s; initialized := initialized s;
     locationConsent := locationConsent s; _currentSession := _currentSession s;
     _sessions := _sessions s; _status := _status s; _loading := _loading s;
     _error := _error s |}.

(** A service initialised with [sessionTTL: 0]. *)
Definition no_ttl : PresenceConfig :=
  {| arg_geolocation := None; arg_sessionTTL := Some (Some 0%Z);
     arg_updateInterval := None |}.
Definition after_initialize_no_ttl : @t string * @world string :=
  snd (initialize (PresenceSpec.sample_env true None) (Some PresenceSpec.ann)
         (Some no_ttl) (initial, PresenceSpec.fresh_world)).

Definition with_deaf_listener : @t string * @world string :=
  (with_listeners [λ _, Thrown deaf] (fst PresenceSpec.after_initialize),
   snd PresenceSpec.after_initialize).

(** A service configured for IP geolocation with consent required. *)
Definition ip_geolocation : PresenceConfig :=
  {| arg_geolocation := Some (Some {| enabled := true; geo_type := ip_geo;
                                      requireConsent := true |});
     arg_sessionTTL := None; arg_updateInterval := None |}.

End PresenceMore.

(** ** PresenceService.getDeviceInfo *)

Module DeviceInfo.

(** Strings as the regular expressions see them: UTF-16 code units. *)
Abbreviation units := (list N).

Definition units_of (s : string) : units :=
  (λ a : ascii, N_of_ascii a) <$> list_ascii_of_string s.

(** [\d], [\s] and [[a-zA-Z0-9-]] on a code unit. *)
Definition is_digit (c : N) : bool := ((48 <=? c) && (c <=? 57))%N.

Definition is_space (c : N) : bool :=
  ((9 <=? c) && (c <=? 13) || (c =? 32) || (c =? 160) || (c =? 5760) ||
   (8192 <=? c) && (c <=? 8202) || (c =? 8232) || (c =? 8233) || (c =? 8239) ||
   (c =? 8287) || (c =? 12288) || (c =? 65279))%N.

Definition is_letter (c : N) : bool :=
  ((97 <=? c) && (c <=? 122) || (65 <=? c) && (c <=? 90))%N.

Definition kept (c : N) : bool := is_letter c || is_digit c || (c =? 45)%N.

(** A lower-case pattern letter [p] against [c] under the [i] flag: a code
    unit of 128 or more never matches an ASCII letter. *)
Definition same_letter (p c : N) : bool := ((c =? p) || (c =? p - 32))%N.

(** The alternatives of the first group, in order; [trident] carries the
    lookahead [(?=\/)]. *)
Definition alternatives : list (string * bool) :=
  [("firefox", false); ("chrome", false); ("safari", false); ("opera", false);
   ("edge", false); ("msie", false); ("trident", true)].

(** A name at the head of the input, letter case ignored: the text matched
    and what follows it. *)
Fixpoint match_name (name : units) (input : units) : option (units * units) :=
  match name, input with
  | [], _ => Some ([], input)
  | p :: name', c :: input' =>
      if same_letter p c
      then match match_name name' input' with
           | Some (m, rest) => Some (c :: m, rest)
           | None => None
           end
      else None
  | _ :: _, [] => None
  end.

(** [\s*(\d+)]: white space, then at least one digit. *)
Fixpoint spaces_then_digit (input : units) : bool :=
  match input with
  | [] => false
  | c :: rest => if is_space c then spaces_then_digit rest else is_digit c
  end.

(** [\/?\s*(\d+)]: taking the slash or not leads to the same verdict, since a
    slash is neither white space nor a digit. *)
Definition version_follows (input : units) : bool :=
  match input with
  | 47%N :: rest => spaces_then_digit rest
  | _ => spaces_then_digit input
  end.

Definition lookahead_slash (input : units) : bool :=
  match input with 47%N :: _ => true | _ => false end.

Definition match_alternative (alt : string * bool) (input : units) : option units :=
  match match_name (units_of (fst alt)) input with
  | Some (m, rest) =>
      if (if snd alt then lookahead_slash rest else true) && version_follows rest
      then Some m else None
  | None => None
  end.

(** The whole pattern at the head of the input: the text of group 1. *)
Fixpoint match_here (alts : list (string * bool)) (input : units) : option units :=
  match alts with
  | [] => None
  | alt :: rest =>
      match match_alternative alt input with
      | Some m => Some m
      | None => match_here rest input
      end
  end.

(** [userAgent.match(...)]: the leftmost position where the pattern matches. *)
Fixpoint search (input : units) : option units :=
  match match_here alternatives input with
  | Some m => Some m
  | None => match input with [] => None | _ :: rest => search rest end
  end.

(** [.replace(/[^a-zA-Z0-9-]/g, '')] *)
Definition sanitize (s : units) : units := List.filter kept s.

Definition getDeviceInfo (userAgent platform : units) : units :=
  let browser := default (units_of "Unknown Browser") (search userAgent) in
  sanitize (browser ++ units_of "-" ++ platform).

(** Code units below 256 back as a string. *)
Definition to_string (s : units) : string :=
  string_of_list_ascii ((λ c : N, ascii_of_N c) <$> s).

(** Lower case of an ASCII letter. *)
Definition lower (c : N) : N := if ((65 <=? c) && (c <=? 90))%N then (c + 32)%N else c.

Definition names : list units := (λ alt : string * bool, units_of (fst alt)) <$> alternatives.

(** The lower-case ASCII letters, of which the names are made. *)
Definition lowercase (p : N) : bool := ((97 <=? p) && (p <=? 122))%N.

(** Sample inputs: two user agents of the same browser, and a platform. *)
Definition chrome_on_linux : units :=
  units_of "Mozilla/5.0 (X11; Linux x86_64) AppleWebKit/537.36 (KHTML, like Gecko) Chrome/120.0.0.0 Safari/537.36".
Definition chrome_bare : units := units_of "Chrome 99".
Definition linux_x86_64 : units := units_of "Linux x86_64".

End DeviceInfo.
(** * Properties of the subscription wrappers *)

Module SubscriptionProps.

Import SubscriptionSpec.

Lemma project_projects doc : projects doc (FirekitCollectionGroup.project doc).
Proof.
  unfold projects, FirekitCollectionGroup.project, spread, with_prop.
  repeat split.
  - intros k x Hk. by apply lookup_union_Some_l.
  - intros Hid. rewrite lookup_union_r by done.
    by rewrite lookup_insert_ne, lookup_insert_eq.
  - intros Hp. rewrite lookup_union_r by done. by rewrite lookup_insert_eq.
  - intros k Hk1 Hk2. destruct (FirekitCollectionGroup.doc_data doc !! k) eqn:Hk.
    + by apply lookup_union_Some_l.
    + rewrite lookup_union_r by done.
      by rewrite !lookup_insert_ne, lookup_empty.
Qed.

(** C1: in each of the three subscription wrappers the error callback stores
    the error it is given, unmodified, in the error field, turns loading off
    and leaves the data as it was; the error getter then returns that error. *)
Theorem error_callback_stores_error_verbatim :
  (∀ (st : FirekitDoc.t) (e : obj),
     let st' := FirekitDoc.on_error st e in
     FirekitDoc.error st' = Some e ∧ FirekitDoc.loading st' = false ∧
     FirekitDoc.data st' = FirekitDoc.data st) ∧
  (∀ (st : FirekitCollectionGroup.t) (e : obj),
     let st' := FirekitCollectionGroup.on_error st e in
     FirekitCollectionGroup.error st' = Some e ∧
     FirekitCollectionGroup.loading st' = false ∧
     FirekitCollectionGroup.data st' = FirekitCollectionGroup.data st) ∧
  (∀ (st : FirekitRealtimeDB.t) (e : obj),
     let st' := FirekitRealtimeDB.on_error st e in
     FirekitRealtimeDB.error st' = Some e ∧ FirekitRealtimeDB.loading st' = false ∧
     FirekitRealtimeDB.data st' = FirekitRealtimeDB.data st).
Proof. repeat split. Qed.

(** C4, as stated, fails: a document that stores an [id] field keeps it, so
    the exposed object's [id] is not the document id. *)
Lemma group_stored_id_wins :
  let st' := FirekitCollectionGroup.on_snapshot FirekitCollectionGroup.init
               (FirekitCollectionGroup.mkQSnap [task_with_stored_id]) in
  (λ o : obj, o !! "id") <$> FirekitCollectionGroup.data st' = [Some (VStr "legacy-7")] ∧
  (λ o : obj, o !! "id") <$> (augmented_with_id_and_path <$> [task_with_stored_id])
    = [Some (VStr "a1")] ∧
  FirekitCollectionGroup.data st' ≠ augmented_with_id_and_path <$> [task_with_stored_id].
Proof.
  assert (H1 : (λ o : obj, o !! "id") <$>
               FirekitCollectionGroup.data
                 (FirekitCollectionGroup.on_snapshot FirekitCollectionGroup.init
                    (FirekitCollectionGroup.mkQSnap [task_with_stored_id]))
               = [Some (VStr "legacy-7")]) by (vm_compute; reflexivity).
  assert (H2 : (λ o : obj, o !! "id") <$>
               (augmented_with_id_and_path <$> [task_with_stored_id])
               = [Some (VStr "a1")]) by (vm_compute; reflexivity).
  cbv zeta. split_and!; [exact H1 | exact H2 |].
  intros Heq. rewrite Heq, H2 in H1. discriminate.
Qed.

(** C4, amended: after a snapshot, data holds one object per document, in
    order; each object keeps every field of the document and gains [id]
    (the document id) and [path] (the reference path) where the document has
    no field of that name; loading is false, error is null, size is the number
    of documents and empty is true exactly when size is zero. *)
Theorem group_snapshot_forwarded
    (st : FirekitCollectionGroup.t) (snapshot : FirekitCollectionGroup.QuerySnapshot) :
  let st' := FirekitCollectionGroup.on_snapshot st snapshot in
  Forall2 projects (FirekitCollectionGroup.docs snapshot) (FirekitCollectionGroup.data st') ∧
  FirekitCollectionGroup.loading st' = false ∧
  FirekitCollectionGroup.error st' = None ∧
  FirekitCollectionGroup.size st' = length (FirekitCollectionGroup.docs snapshot) ∧
  (FirekitCollectionGroup.empty st' = true ↔ FirekitCollectionGroup.size st' = 0).
Proof.
  cbv zeta. unfold FirekitCollectionGroup.data, FirekitCollectionGroup.size,
    FirekitCollectionGroup.empty. cbn.
  split_and!; try done.
  - induction (FirekitCollectionGroup.docs snapshot) as [|doc rest IH]; cbn.
    + constructor.
    + constructor; [apply project_projects | exact IH].
  - by rewrite length_map.
  - apply Nat.eqb_eq.
Qed.

(** C5: a snapshot with data exposes that data with [id] set to the
    snapshot's document id and every other field as delivered, a snapshot
    without data exposes null; loading is false and error null afterwards;
    [exists] is true exactly when data is not null. *)
Theorem doc_snapshot_mirrored (st : FirekitDoc.t) (snapshot : FirekitDoc.DocumentSnapshot) :
  let st' := FirekitDoc.on_snapshot st snapshot in
  FirekitDoc.data st' =
    (λ d : obj, <["id" := VStr (FirekitDoc.snap_id snapshot)]> d)
      <$> FirekitDoc.snap_data snapshot ∧
  (∀ d, FirekitDoc.snap_data snapshot = Some d →
     ∃ d', FirekitDoc.data st' = Some d' ∧
           d' !! "id" = Some (VStr (FirekitDoc.snap_id snapshot)) ∧
           ∀ k, k ≠ "id" → d' !! k = d !! k) ∧
  (FirekitDoc.snap_data snapshot = None → FirekitDoc.data st' = None) ∧
  FirekitDoc.loading st' = false ∧
  FirekitDoc.error st' = None ∧
  (∀ s : FirekitDoc.t, FirekitDoc.exists_ s = true ↔ FirekitDoc.data s ≠ None).
Proof.
  cbv zeta. unfold FirekitDoc.data, FirekitDoc.on_snapshot, with_prop. cbn.
  split_and!.
  - by destruct (FirekitDoc.snap_data snapshot).
  - intros d ->. eexists; split_and!; [done | apply lookup_insert_eq |].
    intros k Hk. by apply lookup_insert_ne.
  - by intros ->.
  - done.
  - done.
  - intros s. unfold FirekitDoc.exists_. destruct (FirekitDoc._data s); naive_solver.
Qed.

(** Errors delivered after a snapshot leave the data where the snapshot put it. *)
Lemma doc_errors_keep_data (st : FirekitDoc.t) (errs : list obj) :
  FirekitDoc.data (FirekitDoc.run st (FirekitDoc.Error <$> errs)) = FirekitDoc.data st.
Proof.
  revert st. induction errs as [|e errs IH]; intros st; [done|].
  cbn. unfold FirekitDoc.run in IH. by rewrite IH.
Qed.

(** C8: whatever the delivered document data holds, a stored [id] field
    included, the exposed data's [id] is the snapshot's document id, and it
    stays so until the next snapshot. *)
Theorem doc_id_overwrites_stored_id
    (st : FirekitDoc.t) (docId : string) (d : obj) (stored : value) (errs : list obj) :
  let delivered := <["id" := stored]> d in
  let after (payload : obj) :=
    FirekitDoc.run (FirekitDoc.on_snapshot st (FirekitDoc.mkSnap docId (Some payload)))
                   (FirekitDoc.Error <$> errs) in
  (∃ d', FirekitDoc.data (after delivered) = Some d' ∧ get d' "id" = VStr docId) ∧
  (∃ d', FirekitDoc.data (after d) = Some d' ∧ get d' "id" = VStr docId).
Proof.
  cbv beta zeta. rewrite !doc_errors_keep_data.
  unfold FirekitDoc.data, FirekitDoc.on_snapshot, with_prop, get. cbn.
  split; eexists; (split; [reflexivity|]); by rewrite lookup_insert_eq.
Qed.

(** C7: [dispose] calls the stored unsubscribe function when there is one and
    makes no other vendor call; data, loading and error read the same before
    and after. *)
Theorem dispose_unsubscribes_and_keeps_fields
    (st : FirekitRealtimeDB.t) (calls : list FirekitRealtimeDB.call) :
  let r := FirekitRealtimeDB.dispose st calls in
  snd r = calls ++ match FirekitRealtimeDB.unsubscribe st with
                   | Some h => [FirekitRealtimeDB.Unsubscribe h]
                   | None => []
                   end ∧
  FirekitRealtimeDB.data (fst r) = FirekitRealtimeDB.data st ∧
  FirekitRealtimeDB.loading (fst r) = FirekitRealtimeDB.loading st ∧
  FirekitRealtimeDB.error (fst r) = FirekitRealtimeDB.error st.
Proof.
  cbv zeta. unfold FirekitRealtimeDB.dispose.
  destruct (FirekitRealtimeDB.unsubscribe st); cbn; split_and!; try done.
  by rewrite app_nil_r.
Qed.

End SubscriptionProps.

(** * Properties of the document mutations *)

Module MutationProps.

Import FirekitDocumentMutations MutationSpec.

#[local] Arguments spread : simpl never.
#[local] Arguments with_prop : simpl never.
#[local] Arguments getTimestampData : simpl never.

(** Unfold a method down to the vendor's answers. *)
Ltac unfold_methods :=
  unfold perform, body, add, add_body, set, set_body, update, update_body,
    delete, delete_body, getDoc_, getDoc_body, exists_, exists_body,
    try_catch, mbind, M_bind, mret, M_ret, ask, store in *.

(** Case on the next vendor answer, or option, that the goal inspects. *)
Ltac next_answer :=
  match goal with
  | |- context [match ?x with Returned _ => _ | Thrown _ => _ end] =>
      let H := fresh "Hans" in destruct x eqn:H
  | |- context [match customId_given ?o with _ => _ end] =>
      let H := fresh "Hcid" in destruct (customId_given o) eqn:H
  | |- context [if includes ?c ?p then _ else _] =>
      let H := fresh "Hinc" in destruct (includes c p) eqn:H
  | |- context [snap_exists ?s] =>
      let H := fresh "Hdata" in unfold snap_exists; destruct (snap_data s) eqn:H
  end; cbn in *.

Ltac break_up :=
  repeat match goal with
         | H : _ ∨ _ |- _ => destruct H as [H|H]
         | H : ∃ _, _ |- _ => destruct H as [? H]
         | H : _ ∧ _ |- _ => destruct H as [? H]
         end.

Ltac by_sdk := unfold thrown_by_sdk; eauto 12.

Lemma handleError_shape (e : obj) :
  success (handleError e) = false ∧ id (handleError e) = None ∧
  data (handleError e) = None ∧
  error (handleError e) =
    Some {| code := if truthy (get e "code") then get e "code" else VStr "unknown_error";
            message := if truthy (get e "message") then get e "message"
                       else VStr "An unknown error occurred" |}.
Proof. done. Qed.

(** Laying fields over an object, as the spreads of the methods do it. *)
Lemma overlaid_stamps (uid : value) (data : obj) (isNew : bool) :
  overlaid data (stamps uid isNew) (spread data (getTimestampData uid isNew)).
Proof.
  intros k. unfold spread, getTimestampData, with_prop, stamps.
  destruct isNew; cbn;
    repeat (match goal with
            | |- context [String.eqb k ?s] => destruct (String.eqb_spec k s) as [->|?]
            end; [apply lookup_union_Some_l; by simplify_map_eq|]);
    (rewrite lookup_union_r; [done | by simplify_map_eq]).
Qed.

Lemma overlaid_id (data : obj) (extras : list (string * value)) (p : obj) (x : value) :
  assoc "id" extras = None → overlaid data extras p →
  overlaid data (extras ++ [("id", x)]) (with_prop p "id" x).
Proof.
  intros Hfresh Hp k. unfold with_prop.
  assert (Hassoc : ∀ k, assoc k (extras ++ [("id", x)]) =
            match assoc k extras with
            | Some y => Some y
            | None => if String.eqb k "id" then Some x else None
            end).
  { clear. intros k. induction extras as [|[k' y] rest IH]; cbn; [done|].
    by destruct (String.eqb k k'). }
  rewrite Hassoc. destruct (String.eqb_spec k "id") as [->|Hne].
  - by rewrite Hfresh, lookup_insert_eq.
  - rewrite lookup_insert_ne by done. rewrite Hp. by destruct (assoc k extras).
Qed.

Lemma stamped_with_id (uid : value) (data : obj) (r : DocumentReference) :
  overlaid data (stamps uid true ++ [("id", VStr (ref_id r))])
    (with_prop (spread data (getTimestampData uid true)) "id" (VStr (ref_id r))).
Proof. apply overlaid_id; [done | apply overlaid_stamps]. Qed.

(** What [overlaid] gives for the caller's own fields. *)
Lemma overlaid_passes_through (data : obj) (extras : list (string * value)) (p : obj) :
  overlaid data extras p →
  (∀ k, assoc k extras = None → p !! k = data !! k) ∧
  (∀ k, is_Some (p !! k) → is_Some (data !! k) ∨ is_Some (assoc k extras)).
Proof.
  intros Hp. split; intros k.
  - intros Hk. by rewrite Hp, Hk.
  - rewrite Hp. destruct (assoc k extras); eauto.
Qed.

(** [includes] and [split] on sample paths. *)
Example split_samples :
  split "/" "users/d1" = ["users"; "d1"] ∧ split "/" "users" = ["users"] ∧
  split "/" "" = [""] ∧ split "/" "a//b/" = ["a"; ""; "b"; ""] ∧
  includes "/" "users/d1" = true ∧ includes "/" "users" = false.
Proof. split_and!; reflexivity. Qed.

Ltac described :=
  repeat (apply List.Forall_cons;
          [split; [exact I | unfold write_described;
                   first [apply overlaid_stamps | apply stamped_with_id]]|]);
  apply List.Forall_nil.

(** C2, as stated, fails: [update] writes no [id], and [set] writes
    [createdAt] and [createdBy] although it is not [add]. *)
Lemma update_payload_lacks_id :
  (∃ p, snd (update sdk_ok signed_in "users/d1" jane default_options [])
          = [UpdateDoc d1 p] ∧
        p !! "id" = None ∧
        ¬ payload_as_claimed false signed_in jane (ref_id d1) p) ∧
  (∃ p, snd (set sdk_ok signed_in "users/d1" jane default_set_options [])
          = [SetDoc d1 p (Some (Some false))] ∧
        p !! "createdAt" = Some VServerTimestamp ∧
        jane !! "createdAt" = None ∧
        ¬ payload_as_claimed false signed_in jane (ref_id d1) p).
Proof.
  split.
  - exists (spread jane (getTimestampData signed_in false)).
    assert (Hid : spread jane (getTimestampData signed_in false) !! "id" = None)
      by (vm_compute; reflexivity).
    split_and!; [reflexivity | exact Hid |].
    intros (Hclaimed & _). rewrite Hid in Hclaimed. discriminate.
  - exists (with_prop (spread jane (getTimestampData signed_in true)) "id" (VStr "d1")).
    split_and!; [reflexivity | vm_compute; reflexivity | vm_compute; reflexivity |].
    intros (_ & _ & _ & _ & _ & Hno_other).
    destruct (Hno_other "createdAt") as [[x Hx] | Hin].
    + eexists. vm_compute. reflexivity.
    + vm_compute in Hx. discriminate.
    + cbn in Hin. set_solver.
Qed.

(** C2, amended: with timestamps on, every store call of [add], [set] and
    [update] carries the caller's data overlaid with the bookkeeping fields
    and nothing else: [addDoc] gets updatedAt, updatedBy, createdAt and
    createdBy; [setDoc] (from [add] and from [set]) gets those four and [id],
    the id of the reference written to; [updateDoc] gets updatedAt and
    updatedBy only.  A caller field with another name passes through
    unchanged. *)
Theorem timestamped_payloads (v : sdk) (uid : value) (k : write_kind) (path : string)
    (data : obj) (options : MutationOptions) (h : list call) :
  timestamps_on options = true →
  payloads_described v uid (write_request k path data options) data h.
Proof.
  intros Hts. unfold payloads_described.
  destruct k; unfold_methods; cbn; unfold spread_timestamps; rewrite Hts;
    repeat next_answer;
    first [ by exists []; rewrite app_nil_r
          | eexists [_]; split; [reflexivity|]; described
          | eexists [_; _]; split; [by rewrite <- app_assoc|]; described ].
Qed.

Lemma timestamped_payloads_witness :
  timestamps_on default_options = true ∧
  payloads_described sdk_ok signed_in
    (write_request ViaAdd "users" jane default_options) jane [].
Proof. split; [reflexivity | apply timestamped_payloads; reflexivity]. Defined.

(** With a vendor that answers, [add] does reach the store twice. *)
Example add_writes_twice :
  ∃ p, snd (add sdk_ok signed_in "users" jane default_options [])
       = [AddDoc "users" p; SetDoc (mkDocRef "auto1" "users")
                                   (with_prop p "id" (VStr "auto1")) None].
Proof. eexists. reflexivity. Qed.



(** C10: [exists] never throws.  It returns true exactly when the lookup
    succeeds and the snapshot holds a document; it returns false when the
    document is absent and also when a vendor call throws. *)
Theorem exists_swallows_errors (v : sdk) (path : string) (h : list call) :
  ∃ b, fst (exists_ v path h) = Returned b ∧
       (b = true ↔
        ∃ ref snapshot d,
          getDbInstance v h = Returned () ∧ doc v h path = Returned ref ∧
          getDoc v h ref = Returned snapshot ∧ snap_data snapshot = Some d) ∧
       (b = false ↔
        (∃ e, getDbInstance v h = Thrown e) ∨
        (∃ e, getDbInstance v h = Returned () ∧ doc v h path = Thrown e) ∨
        (∃ ref e, getDbInstance v h = Returned () ∧ doc v h path = Returned ref ∧
                  getDoc v h ref = Thrown e) ∨
        (∃ ref snapshot, getDbInstance v h = Returned () ∧ doc v h path = Returned ref ∧
                  getDoc v h ref = Returned snapshot ∧ snap_data snapshot = None)).
Proof.
  unfold_methods. cbn. repeat next_answer;
    repeat match goal with u : unit |- _ => destruct u end;
    (eexists; split; [reflexivity|]);
    split; (split; [ first [done | intros _; eauto 12]
                   | first [done | intros H; break_up; congruence ] ]).
Qed.

(** An absent document and a failed lookup give the caller the same answer. *)
Example exists_absent_or_failed :
  exists_ sdk_empty_store "users/d1" [] = (Returned false, [GetDoc d1]) ∧
  exists_ sdk_reads_fail "users/d1" [] = (Returned false, [GetDoc d1]) ∧
  exists_ sdk_ok "users/d1" [] = (Returned true, [GetDoc d1]).
Proof. split_and!; vm_compute; reflexivity. Qed.

End MutationProps.

(** * Properties of the presence service *)

Module PresenceProps.

Import PresenceService PresenceSpec.

Section Laws.

Context {Location : Type} (E : @env Location).

Abbreviation state := (@t Location * @world Location)%type.

#[local] Abbreviation quiet := (@PresenceSpec.quiet Location _).

(** Inversion of a sequence that returned. *)
Lemma bind_Returned {A B} (m : P A) (f : A → P B) (s s' : state) (b : B) :
  (m ≫= f) s = (Returned b, s') →
  ∃ a s1, m s = (Returned a, s1) ∧ f a s1 = (Returned b, s').
Proof.
  unfold mbind, P_bind. destruct (m s) as [[a|e] s1]; [eauto | discriminate].
Qed.

Lemma quiet_ret {A} (a : A) : quiet (mret a).
Proof. intros s r s' [= <- <-]. done. Qed.

Lemma quiet_throw {A} (e : obj) : quiet (@throw Location A e).
Proof. intros s r s' [= <- <-]. done. Qed.

Lemma quiet_ask {A} (f : world → outcome A) : quiet (ask f).
Proof. intros s r s' [= <- <-]. done. Qed.

Lemma quiet_gets {A} (f : t → A) : quiet (gets f).
Proof. intros s r s' [= <- <-]. done. Qed.

Lemma quiet_bind {A B} (m : P A) (f : A → P B) :
  quiet m → (∀ a, quiet (f a)) → quiet (m ≫= f).
Proof.
  intros Hm Hf s r s'. unfold mbind, P_bind.
  destruct (m s) as [[a|e] s1] eqn:Hms.
  - intros Hfs. destruct (Hm _ _ _ Hms) as [H1 H2].
    destruct (Hf _ _ _ _ Hfs) as [H3 H4]. split; congruence.
  - intros [= <- <-]. exact (Hm _ _ _ Hms).
Qed.

Lemma quiet_now : quiet (now E).
Proof. apply quiet_ask. Qed.

Lemma quiet_iso_now : quiet (iso_now E).
Proof. apply quiet_bind; [apply quiet_now | intros; apply quiet_ask]. Qed.

Lemma quiet_getLocation : quiet (getLocation E).
Proof.
  unfold getLocation. apply quiet_bind; [apply quiet_gets | intros c].
  apply quiet_bind; [apply quiet_gets | intros consent].
  destruct (_ || _); [apply quiet_ret | apply quiet_ask].
Qed.

Lemma quiet_merge_session snapshot sessionId user device st loc :
  quiet (merge_session E snapshot sessionId user device st loc).
Proof.
  unfold merge_session.
  destruct snapshot as [val|]; [destruct (list_find _ _) as [[i x]|]|];
    repeat (apply quiet_bind; [apply quiet_iso_now | intros ?]); apply quiet_ret.
Qed.

Lemma quiet_drop_stale l : quiet (drop_stale E l).
Proof.
  unfold drop_stale. apply quiet_bind; [apply quiet_gets | intros c].
  destruct (ttl_configured c); [|apply quiet_ret].
  apply quiet_bind; [apply quiet_now | intros n].
  apply quiet_bind; [apply quiet_ask | intros ?]. apply quiet_ret.
Qed.

(** The session ids after the merge. *)
Lemma fmap_uid_refresh (l : list (SessionData Location)) i x st seen loc :
  l !! i = Some x → uid <$> <[i := refresh x st seen loc]> l = uid <$> l.
Proof.
  intros Hi. rewrite list_fmap_insert. apply list_insert_id.
  by rewrite list_lookup_fmap, Hi.
Qed.

Lemma merge_session_NoDup snapshot sessionId user device st loc (s s1 : state) l :
  merge_session E snapshot sessionId user device st loc s = (Returned l, s1) →
  NoDup (uid <$> stored snapshot) → NoDup (uid <$> l).
Proof.
  unfold merge_session. intros Hrun Hnd.
  destruct snapshot as [val|].
  - assert (Hst : default [] val = stored (Some val)) by by destruct val.
    rewrite Hst in Hrun.
    destruct (list_find _ _) as [[i x]|] eqn:Hfind.
    + apply bind_Returned in Hrun as (seen & s2 & _ & [= <- _]).
      apply list_find_Some in Hfind as (Hi & _ & _).
      by rewrite fmap_uid_refresh.
    + apply bind_Returned in Hrun as (created & s2 & _ & Hrun).
      apply bind_Returned in Hrun as (seen & s3 & _ & [= <- _]).
      rewrite fmap_app. apply NoDup_app. split_and!; [done | | apply NoDup_singleton].
      intros u Hu ->%list_elem_of_singleton.
      apply list_elem_of_fmap in Hu as (y & Hy & Hin).
      apply list_find_None in Hfind. rewrite Forall_forall in Hfind.
      by apply (Hfind y).
  - apply bind_Returned in Hrun as (created & s2 & _ & Hrun).
    apply bind_Returned in Hrun as (seen & s3 & _ & [= <- _]).
    apply NoDup_singleton.
Qed.

Lemma filter_fmap_NoDup {A B} (f : A → B) (p : A → bool) (l : list A) :
  NoDup (f <$> l) → NoDup (f <$> List.filter p l).
Proof.
  induction l as [|x l IH]; cbn; [done|].
  intros [Hx Hl]%NoDup_cons. destruct (p x); cbn; [|by apply IH].
  apply NoDup_cons. split; [|by apply IH].
  intros (y & Hy & Hin)%list_elem_of_fmap. apply Hx.
  apply list_elem_of_fmap. exists y. split; [done|].
  apply list_elem_of_In. apply list_elem_of_In in Hin.
  by apply List.filter_In in Hin as [? _].
Qed.

Lemma drop_stale_Returned l ttl (s s1 : state) l' :
  drop_stale E l s = (Returned l', s1) →
  ttl_configured (config (fst s)) = Some ttl →
  ∃ w cutoffTime, toISOString E (clock E w - ttl) = Returned cutoffTime ∧
                  l' = List.filter (not_stale cutoffTime) l.
Proof.
  unfold drop_stale. intros Hrun Httl.
  apply bind_Returned in Hrun as (c & s2 & [= <- <-] & Hrun).
  rewrite Httl in Hrun.
  apply bind_Returned in Hrun as (n & s3 & [= <- <-] & Hrun).
  apply bind_Returned in Hrun as (cutoffTime & s4 & [= Hiso <-] & [= <- _]).
  eauto.
Qed.

Lemma first_session_found sessionId (l : list (SessionData Location)) :
  the_first_session sessionId l (snd <$> list_find (has_uid sessionId) l).
Proof.
  destruct (list_find _ l) as [[i x]|] eqn:Hfind; cbn.
  - apply list_find_Some in Hfind as (Hi & Hx & Hbefore). eauto.
  - apply list_find_None in Hfind. rewrite Forall_forall in Hfind. exact Hfind.
Qed.

Lemma first_session_unique sessionId (l : list (SessionData Location)) current :
  NoDup (uid <$> l) → the_first_session sessionId l current →
  the_unique_session sessionId l current.
Proof.
  intros Hnd. destruct current as [x|]; cbn; [|done].
  intros (i & Hi & Hx & _). split_and!; [by eapply list_elem_of_lookup_2 | done |].
  intros y (j & Hj)%list_elem_of_lookup Hy.
  assert (i = j) as ->; [|congruence].
  eapply NoDup_lookup; [exact Hnd | |]; rewrite list_lookup_fmap.
  - by rewrite Hi.
  - rewrite Hj. cbn. congruence.
Qed.


(** The shared [catch] clause, run: it stores the error, tells the listeners
    and throws; what it throws is the error, unless a listener threw first. *)
Lemma store_and_rethrow_run {A} (e : obj) (s : state) :
  @store_and_rethrow Location E A e s =
    (match call_all (eventListeners (fst s)) (ErrorEvent e (clock E (snd s))) with
     | Returned _ => Thrown e
     | Thrown e' => Thrown e'
     end,
     (set_error e (fst s), tick (snd s))).
Proof.
  unfold store_and_rethrow, mbind, P_bind, modify, now, ask, emitEvent, throw. cbn.
  by destruct (call_all _ _).
Qed.


Lemma ask_Returned {A} (f : world → outcome A) (s s1 : state) (a : A) :
  ask f s = (Returned a, s1) →
  f (snd s) = Returned a ∧ fst s1 = fst s ∧ dbcalls (snd s1) = dbcalls (snd s).
Proof. by intros [= -> <-]. Qed.


End Laws.

(** The sample runtime renders instants as [toISOString] does. *)
Example iso8601_samples :
  iso8601 0 = Returned "1970-01-01T00:00:00.000Z" ∧
  iso8601 (-1) = Returned "1969-12-31T23:59:59.999Z" ∧
  iso8601 951782400000 = Returned "2000-02-29T00:00:00.000Z" ∧
  iso8601 1709210096789 = Returned "2024-02-29T12:34:56.789Z" ∧
  iso8601 new_year_2026 = Returned "2026-01-01T00:00:00.000Z" ∧
  iso8601 (new_year_2026 - 30 * 60 * 1000) = Returned "2025-12-31T23:30:00.000Z".
Proof. split_and!; vm_compute; reflexivity. Qed.




(** In that run the stale phone session is dropped and the browser's is kept. *)
Example two_devices_run :
  let r := setPresence env_two_devices online after_initialize in
  sessions (fst (snd r)) = [browser_session_online] ∧
  currentSession (fst (snd r)) = Some browser_session_online ∧
  dbcalls (snd (snd r)) = [DbSet "sessions/u1" [browser_session_online]].
Proof. cbv zeta. split_and!; vm_compute; reflexivity. Qed.

End PresenceProps.

(** * Properties of the further code *)

Module UserProps.
Import FirekitUser.

Lemma run_snoc st evs ev : run st (evs ++ [ev]) = on_auth_state_changed (run st evs) ev.
Proof. unfold run. by rewrite fold_left_app. Qed.

Lemma last_user_snoc evs ev :
  last_user (evs ++ [ev]) = match ev with Some u => Some u | None => last_user evs end.
Proof.
  unfold last_user. rewrite omap_app. destruct ev as [u|]; cbn.
  - by rewrite last_snoc.
  - by rewrite app_nil_r.
Qed.

Lemma user_after_run st evs :
  _user (run st evs) = match last_user evs with Some u => Some u | None => _user st end.
Proof.
  induction evs as [|ev evs IH] using rev_ind; [done|].
  rewrite run_snoc, last_user_snoc. destruct ev as [u|]; cbn; [done|]. exact IH.
Qed.

(** X1: after any sequence of auth-state callbacks, [uid] and [user] are those
    of the last callback that carried a user: a sign-out (a callback with
    null) does not clear them.  [initialized] is true once any callback has
    run, and [isLoggedIn] tells whether the last callback carried a user. *)
Theorem uid_outlives_sign_out (st : t) (evs : list (option User)) :
  let st' := run st evs in
  uid st' = match last_user evs with
            | Some u => VStr (user_uid u)
            | None => uid st
            end ∧
  user st' = match last_user evs with Some u => Some u | None => user st end ∧
  initialized st' = match last evs with Some _ => Some true | None => initialized st end ∧
  isLoggedIn st' = match last evs with
                   | Some (Some _) => Some true
                   | Some None => Some false
                   | None => isLoggedIn st
                   end.
Proof.
  cbv zeta. unfold uid, user. rewrite user_after_run.
  split_and!; try by destruct (last_user evs).
  - destruct evs as [|ev evs _] using rev_ind; [done|].
    rewrite run_snoc, last_snoc. by destruct ev.
  - destruct evs as [|ev evs _] using rev_ind; [done|].
    rewrite run_snoc, last_snoc. by destruct ev.
Qed.

(** X2: [updateEmailUser], [updatePassword], [updateDisplayName] and
    [updatePhotoURL] throw the no-user error without calling the vendor as
    long as no callback has carried a user.  Afterwards each makes exactly one
    vendor call, on the last user seen (also after a sign-out), and ends as
    that call ends: nothing is caught. *)
Theorem updates_use_the_last_user (v : sdk) (evs : list (option User))
    (x : string) (h : list call) :
  let st := run init evs in
  match last_user evs with
  | None =>
      updateEmailUser v st x h = (Thrown no_user, h) ∧
      updatePassword_ v st x h = (Thrown no_user, h) ∧
      updateDisplayName v st x h = (Thrown no_user, h) ∧
      updatePhotoURL v st x h = (Thrown no_user, h)
  | Some u =>
      updateEmailUser v st x h = (updateEmail v h u x, h ++ [UpdateEmail u x]) ∧
      updatePassword_ v st x h = (updatePassword v h u x, h ++ [UpdatePassword u x]) ∧
      updateDisplayName v st x h =
        (updateProfile v h u "displayName" x, h ++ [UpdateProfile u "displayName" x]) ∧
      updatePhotoURL v st x h =
        (updateProfile v h u "photoURL" x, h ++ [UpdateProfile u "photoURL" x])
  end.
Proof.
  cbv zeta. unfold updateEmailUser, updatePassword_, updateDisplayName, updatePhotoURL.
  rewrite user_after_run. by destruct (last_user evs).
Qed.
End UserProps.

Module MutationMore.
Import FirekitDocumentMutations MutationSpec MutationSpec2 MutationProps.

#[local] Arguments spread : simpl never.
#[local] Arguments with_prop : simpl never.
#[local] Arguments getTimestampData : simpl never.

Lemma or_else_truthy (a : value) (s : string) :
  s ≠ "" → truthy (or_else a (VStr s)) = true.
Proof.
  intros Hs. unfold or_else. destruct (truthy a) eqn:Ha; [done|]. cbn.
  by destruct (String.eqb_spec s "").
Qed.

(** X3: every request (add, set, update, delete, getDoc) returns a response.
    A successful one has no error and an id, and has data unless it answers a
    delete; a failed one has neither id nor data, and an error whose code and
    message are both truthy. *)
Theorem responses_well_formed (v : sdk) (uid : value) (req : request) (h : list call) :
  ∃ r, fst (perform v uid req h) = Returned r ∧
       if success r
       then error r = None ∧ is_Some (id r) ∧
            (is_Some (data r) ∨ ∃ path, req = DeleteReq path)
       else id r = None ∧ data r = None ∧
            ∃ c m, error r = Some {| code := c; message := m |} ∧
                   truthy c = true ∧ truthy m = true.
Proof.
  destruct req; unfold_methods; cbn; repeat next_answer;
    (eexists; split; [reflexivity|]); cbn;
    first [ split_and!; [reflexivity | solve [eauto] | solve [eauto]]
          | split_and!; [reflexivity | reflexivity |];
            eexists _, _; split_and!;
            [reflexivity | by apply or_else_truthy | by apply or_else_truthy]
          | split_and!; [reflexivity | reflexivity |];
            eexists _, _; split_and!; reflexivity ].
Qed.

(** X4: a successful add, set or update reports the id of the reference its
    last store call wrote to, and the data it returns is the payload of that
    call; for add and set the payload's [id] field is that same id. *)
Theorem response_echoes_write (v : sdk) (uid : value) (k : write_kind) (path : string)
    (data : obj) (options : MutationOptions) (h : list call) :
  let run := perform v uid (write_request k path data options) h in
  ∃ r, fst run = Returned r ∧
    (success r = true →
     ∃ ref payload,
       id r = Some (ref_id ref) ∧
       last (snd run) = Some (final_write k options ref payload) ∧
       FirekitDocumentMutations.data r = Some payload ∧
       (k ≠ ViaUpdate → payload !! "id" = Some (VStr (ref_id ref)))).
Proof.
  cbv zeta.
  destruct k; unfold_methods; cbn; repeat next_answer;
    (eexists; split; [reflexivity|]); cbn; intros Hok; try discriminate Hok;
    eexists _, _;
    (split_and!;
       [ reflexivity
       | by rewrite last_snoc
       | unfold with_prop; by rewrite ?insert_insert_eq
       | intros Hk; try done; unfold with_prop; by rewrite lookup_insert_eq ]).
Qed.

(** X5: a request only appends to the log of store calls, and appends at most:
    for add, [addDoc] and then [setDoc] on the reference [addDoc] returned
    (with a custom id, one [setDoc]); for set, one [setDoc] carrying the merge
    option; for update, delete and getDoc, one call of that kind; for
    [exists], one [getDoc]. *)
Theorem store_calls_in_order (v : sdk) (uid : value) (h : list call) :
  (∀ req, ∃ new, snd (perform v uid req h) = h ++ new ∧ calls_of v req h new) ∧
  (∀ path, ∃ new, snd (exists_ v path h) = h ++ new ∧
                  (new = [] ∨ ∃ r, new = [GetDoc r])).
Proof.
  split.
  - intros req. destruct req; unfold_methods; cbn; unfold calls_of;
      repeat next_answer;
      first [ exists []; split; [by rewrite app_nil_r | by eauto]
            | eexists [_]; split; [reflexivity | by eauto 8]
            | eexists [_; _]; split; [by rewrite <- app_assoc | by eauto 12] ].
  - intros path. unfold_methods; cbn; repeat next_answer;
      first [ exists []; split; [by rewrite app_nil_r | by eauto]
            | eexists [_]; split; [reflexivity | by eauto] ].
Qed.

(** X6: add without a custom id is not atomic.  When [addDoc] succeeds and the
    [setDoc] that follows throws [e], the response is the failure built from
    [e], although [addDoc] has created the document: both calls are in the
    log. *)
Theorem add_can_fail_after_creating (v : sdk) (uid : value) (collectionPath : string)
    (data : obj) (options : MutationOptions) (h : list call)
    (c : string) (r : DocumentReference) (e : obj) :
  let p := spread_timestamps uid data options true in
  let p' := with_prop p "id" (VStr (ref_id r)) in
  customId_given options = None →
  getDbInstance v h = Returned () →
  collection v h collectionPath = Returned c →
  addDoc v h c p = Returned r →
  setDoc v (h ++ [AddDoc c p]) r p' = Thrown e →
  add v uid collectionPath data options h =
    (Returned (handleError e), h ++ [AddDoc c p; SetDoc r p' None]).
Proof.
  cbv zeta. intros Hcid Hdb Hcol Hadd Hset. unfold_methods. cbn.
  rewrite Hdb, Hcol, Hcid. cbn. rewrite Hadd. cbn. rewrite Hset. cbn.
  by rewrite <- app_assoc.
Qed.

Lemma add_can_fail_after_creating_witness :
  add sdk_sets_fail signed_in "users" jane default_options [] =
    (Returned (handleError quota),
     [AddDoc "users" (spread_timestamps signed_in jane default_options true);
      SetDoc (mkDocRef "auto1" "users")
             (with_prop (spread_timestamps signed_in jane default_options true)
                        "id" (VStr "auto1")) None]).
Proof.
  exact (add_can_fail_after_creating sdk_sets_fail signed_in "users" jane
           default_options [] "users" (mkDocRef "auto1" "users") quota
           eq_refl eq_refl eq_refl eq_refl eq_refl).
Defined.

Lemma overlaid_only_id (data : obj) (x : value) :
  overlaid data [("id", x)] (with_prop data "id" x).
Proof.
  intros k. unfold with_prop. cbn. destruct (String.eqb_spec k "id") as [->|Hne].
  - by rewrite lookup_insert_eq.
  - by rewrite lookup_insert_ne.
Qed.

Ltac plainly :=
  repeat (apply List.Forall_cons;
          [split; [exact I | unfold write_plain;
                   first [reflexivity | apply overlaid_only_id]]|]);
  apply List.Forall_nil.

(** X7: with timestamps off, [addDoc] and [updateDoc] carry the caller's data
    as it is, and [setDoc] carries it with [id] overlaid and nothing else. *)
Theorem plain_payloads (v : sdk) (uid : value) (k : write_kind) (path : string)
    (data : obj) (options : MutationOptions) (h : list call) :
  timestamps_on options = false →
  payloads_plain v uid (write_request k path data options) data h.
Proof.
  intros Hts. unfold payloads_plain.
  destruct k; unfold_methods; cbn; unfold spread_timestamps; rewrite Hts;
    repeat next_answer;
    first [ by exists []; rewrite app_nil_r
          | eexists [_]; split; [reflexivity|]; plainly
          | eexists [_; _]; split; [by rewrite <- app_assoc|]; plainly ].
Qed.

Lemma plain_payloads_witness :
  payloads_plain sdk_ok signed_in (write_request ViaSet "users/d1" jane no_timestamps)
                 jane [].
Proof. apply plain_payloads. reflexivity. Defined.

Lemma rev_app_rev_app (s a b : string) :
  String.rev_app (String.rev_app s a) b = String.rev_app a (String.append s b).
Proof.
  revert a b. induction s as [|x s IH]; intros a b; [done|].
  change (String.rev_app (String.rev_app s (String x a)) b =
          String.rev_app a (String x (String.append s b))).
  by rewrite IH.
Qed.

Lemma append_empty_r (s : string) : String.append s "" = s.
Proof.
  induction s as [|x s IH]; [done|].
  change (String x (String.append s "") = String x s). by rewrite IH.
Qed.

Lemma split_from_no_sep (c : ascii) (acc s : string) :
  includes c s = false → split_from c acc s = [String.rev (String.rev_app s acc)].
Proof.
  revert acc. induction s as [|x s IH]; intros acc; cbn; [done|].
  destruct (Ascii.eqb x c); [done|]. apply IH.
Qed.

(** A path without the separator splits into itself alone. *)
Lemma split_no_sep (c : ascii) (s : string) : includes c s = false → split c s = [s].
Proof.
  intros Hs. unfold split. rewrite split_from_no_sep by done.
  unfold String.rev. rewrite rev_app_rev_app. cbn. apply (f_equal (λ x, [x])), append_empty_r.
Qed.

(** X8: set on a path without a slash takes the whole path for a collection
    and a document id of the vendor's choosing ([doc(collection(path),
    undefined)]).  It then makes one [setDoc] on that reference, and answers
    with its id, or with the failure built from what [setDoc] threw. *)
Theorem set_without_slash (v : sdk) (uid : value) (path : string) (data : obj)
    (options : MutationOptions) (h : list call) (c : string) (r : DocumentReference) :
  let payload := with_prop (spread_timestamps uid data options true)
                           "id" (VStr (ref_id r)) in
  includes "/" path = false →
  getDbInstance v h = Returned () →
  collection v h path = Returned c →
  doc_in v h c None = Returned r →
  snd (set v uid path data options h) = h ++ [SetDoc r payload (Some (merge options))] ∧
  match setDoc v h r payload with
  | Returned _ =>
      fst (set v uid path data options h) =
        Returned {| success := true; id := Some (ref_id r);
                    FirekitDocumentMutations.data := Some payload; error := None |}
  | Thrown e => fst (set v uid path data options h) = Returned (handleError e)
  end.
Proof.
  cbv zeta. intros Hinc Hdb Hcol Hdoc. unfold_methods. cbn.
  rewrite Hdb, Hinc, (split_no_sep _ _ Hinc). cbn. rewrite Hcol. cbn. rewrite Hdoc. cbn.
  by destruct (setDoc v h r _).
Qed.

Lemma set_without_slash_witness :
  snd (set sdk_ok signed_in "users" jane default_set_options []) =
    [SetDoc (mkDocRef "auto0" "users")
            (with_prop (spread_timestamps signed_in jane default_set_options true)
                       "id" (VStr "auto0"))
            (Some (Some false))].
Proof.
  exact (proj1 (set_without_slash sdk_ok signed_in "users" jane default_set_options []
                  "users" (mkDocRef "auto0" "users") eq_refl eq_refl eq_refl eq_refl)).
Defined.

(** X9: a successful getDoc reports the snapshot's id, and as data the stored
    fields, all of them unchanged, with [id] added only where the document
    stores none: a stored [id] field wins over the snapshot's. *)
Theorem getDoc_keeps_stored_fields (v : sdk) (path : string) (h : list call) :
  ∃ r, fst (getDoc_ v path h) = Returned r ∧
    (success r = true →
     ∃ ref snapshot d payload,
       doc v h path = Returned ref ∧ getDoc v h ref = Returned snapshot ∧
       snap_data snapshot = Some d ∧
       id r = Some (snap_id snapshot) ∧
       FirekitDocumentMutations.data r = Some payload ∧
       (∀ k x, d !! k = Some x → payload !! k = Some x) ∧
       (d !! "id" = None → payload !! "id" = Some (VStr (snap_id snapshot))) ∧
       (∀ k, k ≠ "id" → payload !! k = d !! k)).
Proof.
  unfold_methods. cbn. repeat next_answer;
    (eexists; split; [reflexivity|]); cbn; intros Hok; try discriminate Hok.
  match goal with
  | Hr : doc v h path = Returned ?ref, Hd : snap_data ?s = Some ?d |- _ =>
      exists ref, s, d, (spread (with_prop ∅ "id" (VStr (snap_id s))) d)
  end.
  split_and!; [done | done | done | done | done | | |].
  - intros k x Hk. unfold spread. by apply lookup_union_Some_l.
  - intros Hid. unfold spread, with_prop. rewrite lookup_union_r by done.
    by rewrite lookup_insert_eq.
  - intros k Hk. unfold spread, with_prop.
    match goal with |- (?d ∪ _) !! _ = _ => destruct (d !! k) eqn:Hd end.
    + by apply lookup_union_Some_l.
    + rewrite lookup_union_r by done. by rewrite lookup_insert_ne, lookup_empty.
Qed.
End MutationMore.

Module StampProps.
Import FirekitDocumentMutations MutationSpec MutationSpec2 MutationProps.

#[local] Arguments spread : simpl never.
#[local] Arguments with_prop : simpl never.
#[local] Arguments getTimestampData : simpl never.

Lemma stamped_updatedBy (uid : value) (data : obj) (isNew : bool) :
  spread data (getTimestampData uid isNew) !! "updatedBy" = Some uid.
Proof. by rewrite (overlaid_stamps uid data isNew "updatedBy"). Qed.

Lemma stamped_updatedBy_id (uid x : value) (data : obj) (isNew : bool) :
  with_prop (spread data (getTimestampData uid isNew)) "id" x !! "updatedBy" = Some uid.
Proof. unfold with_prop. rewrite lookup_insert_ne by done. apply stamped_updatedBy. Qed.

Ltac stamped :=
  repeat (apply List.Forall_cons;
          [eexists; split; [reflexivity|];
           first [apply stamped_updatedBy | apply stamped_updatedBy_id]|]);
  apply List.Forall_nil.

(** X10: once a user has signed in and out again [isLoggedIn] is false, yet
    every payload a write with timestamps on sends is stamped with that
    user's uid as [updatedBy]. *)
Theorem stamps_outlive_sign_out (v : sdk) (u : FirekitUser.User)
    (evs : list (option FirekitUser.User)) (k : write_kind) (path : string)
    (data : obj) (m : option bool) (c : option string) (h : list call) :
  let auth := FirekitUser.run FirekitUser.init (evs ++ [Some u; None]) in
  let options := {| timestamps := Some true; merge := m; customId := c |} in
  FirekitUser.isLoggedIn auth = Some false ∧
  ∃ new,
    snd (perform v (FirekitUser.uid auth) (write_request k path data options) h)
      = h ++ new ∧
    Forall (λ call, ∃ payload, payload_of call = Some payload ∧
                      payload !! "updatedBy" = Some (VStr (FirekitUser.user_uid u)))
           new.
Proof.
  cbv zeta.
  assert (Hauth : FirekitUser.run FirekitUser.init (evs ++ [Some u; None]) =
                  {| FirekitUser._user := Some u;
                     FirekitUser._initialized := Some true;
                     FirekitUser._isLoggedIn := Some false |}).
  { unfold FirekitUser.run. by rewrite fold_left_app. }
  rewrite Hauth. split; [done|]. unfold FirekitUser.uid. cbn [FirekitUser._user].
  destruct k; unfold_methods; cbn; unfold spread_timestamps; cbn;
    repeat next_answer;
    first [ by exists []; rewrite app_nil_r
          | eexists [_]; split; [reflexivity|]; stamped
          | eexists [_; _]; split; [by rewrite <- app_assoc|]; stamped ].
Qed.
End StampProps.

Module WrapperLifeProps.
Import WrapperLife.

Ltac break_up :=
  repeat match goal with
         | H : _ ∨ _ |- _ => destruct H as [H|H]
         | H : ∃ _, _ |- _ => destruct H as [? H]
         | H : _ ∧ _ |- _ => destruct H as [? H]
         end.

(** The last element picked by a partial function, one event later. *)
Lemma last_omap_snoc {A B} (f : A → option B) (l : list A) (x : A) :
  last (omap f (l ++ [x])) = match f x with Some y => Some y | None => last (omap f l) end.
Proof.
  rewrite omap_app. cbn. destruct (f x); cbn; [by rewrite last_snoc | by rewrite app_nil_r].
Qed.

(** X11: after any sequence of snapshot and error callbacks, [data] and
    [exists] of a FirekitDoc are those of the last snapshot (null and false
    when it had no data), [error] is that of the last callback (null after a
    snapshot), [loading] is false once any callback has run, and [id] and
    [ref] are what they were. *)
Theorem doc_reflects_last_callbacks (st : FirekitDoc.t) (evs : list FirekitDoc.event) :
  let st' := FirekitDoc.run st evs in
  FirekitDoc.data st' = match last_doc_snapshot evs with
                        | Some s => exposed s
                        | None => FirekitDoc.data st
                        end ∧
  FirekitDoc.error st' = match last evs with
                         | Some (FirekitDoc.Error e) => Some e
                         | Some (FirekitDoc.Snapshot _) => None
                         | None => FirekitDoc.error st
                         end ∧
  FirekitDoc.loading st' = match evs with [] => FirekitDoc.loading st | _ => false end ∧
  FirekitDoc.exists_ st' = match last_doc_snapshot evs with
                           | Some s => bool_decide (is_Some (FirekitDoc.snap_data s))
                           | None => FirekitDoc.exists_ st
                           end ∧
  FirekitDoc.id st' = FirekitDoc.id st ∧
  doc_ref st' = doc_ref st.
Proof.
  cbv zeta. induction evs as [|ev evs IH] using rev_ind; [done|].
  unfold FirekitDoc.run in *. rewrite fold_left_app. cbn.
  unfold last_doc_snapshot in *. rewrite last_omap_snoc, last_snoc.
  destruct IH as (Hd & He & Hl & Hx & Hi & Hr).
  destruct ev as [s|e]; cbn; split_and!; try done; try (by destruct evs);
    unfold exposed, FirekitDoc.exists_, FirekitDoc.data; cbn;
    by destruct (FirekitDoc.snap_data s).
Qed.

Lemma doc_loading_after (st : FirekitDoc.t) (evs : list FirekitDoc.event) :
  FirekitDoc.loading (FirekitDoc.run st evs) =
    match evs with [] => FirekitDoc.loading st | _ => false end.
Proof.
  destruct evs as [|ev evs _] using rev_ind; [done|].
  unfold FirekitDoc.run. rewrite fold_left_app. cbn.
  destruct ev; cbn; by destruct evs.
Qed.

(** X12: the constructor of FirekitDoc keeps [startWith] as data.  Off the
    browser it does nothing else.  [error] is set exactly when, in the
    browser, [getDbInstance], [doc] or [onSnapshot] throws, and [loading] is
    then false; [ref] is available exactly when the reference was resolved,
    whether or not the subscription succeeded.  [loading] is true only before
    the first callback, and only if construction did not fail. *)
Theorem doc_constructor_reports_failure (browser : bool) (v : FirekitDoc.sdk)
    (ref : string + DocumentReference) (startWith : option obj)
    (evs : list FirekitDoc.event) :
  let st := FirekitDoc.constructor browser v ref startWith in
  FirekitDoc.data st = startWith ∧
  (FirekitDoc.loading st = true ↔ FirekitDoc.error st = None) ∧
  (browser = false → st = FirekitDoc.init startWith) ∧
  (∀ e, FirekitDoc.error st = Some e ↔
        browser = true ∧
        (FirekitDoc.getDbInstance v = Thrown e ∨
         (FirekitDoc.getDbInstance v = Returned () ∧ resolve v ref = Thrown e) ∨
         (∃ r, FirekitDoc.getDbInstance v = Returned () ∧ resolve v ref = Returned r ∧
               FirekitDoc.onSnapshot v r = Thrown e))) ∧
  (∀ r, doc_ref st = Returned r ↔
        browser = true ∧ FirekitDoc.getDbInstance v = Returned () ∧
        resolve v ref = Returned r) ∧
  (FirekitDoc.loading (FirekitDoc.run st evs) = true ↔
   evs = [] ∧ FirekitDoc.error st = None).
Proof.
  cbv zeta. rewrite doc_loading_after.
  unfold FirekitDoc.constructor, doc_ref.
  change (match ref with inl p => FirekitDoc.doc v p | inr r => Returned r end)
    with (resolve v ref).
  destruct browser; cbn;
    [destruct (FirekitDoc.getDbInstance v) as [[]|e0]; cbn;
     [destruct (resolve v ref) as [r0|e1]; cbn;
      [destruct (FirekitDoc.onSnapshot v r0) as [[]|e2] eqn:Hsub; cbn|]|]|];
    (split_and!; [done | done | done | | |]);
    try (intros x; split; [intros H | intros H; break_up]; simplify_eq;
         first [congruence | eauto 9]; fail);
    try (destruct evs; intuition congruence).
Qed.

(** X13: after any sequence of callbacks, [data] and [size] of a
    FirekitCollectionGroup are those of the last snapshot, [empty] holds
    exactly when [data] is the empty array, [error] is that of the last
    callback (null after a snapshot), [loading] is false once any callback has
    run, and [ref] is what it was. *)
Theorem group_reflects_last_callbacks (st : FirekitCollectionGroup.t)
    (evs : list group_event) :
  let st' := group_run st evs in
  FirekitCollectionGroup.data st' =
    match last_group_snapshot evs with
    | Some s => FirekitCollectionGroup.project <$> FirekitCollectionGroup.docs s
    | None => FirekitCollectionGroup.data st
    end ∧
  FirekitCollectionGroup.size st' =
    match last_group_snapshot evs with
    | Some s => length (FirekitCollectionGroup.docs s)
    | None => FirekitCollectionGroup.size st
    end ∧
  (FirekitCollectionGroup.empty st' = true ↔ FirekitCollectionGroup.data st' = []) ∧
  FirekitCollectionGroup.error st' =
    match last evs with
    | Some (GroupError e) => Some e
    | Some (GroupSnapshot _) => None
    | None => FirekitCollectionGroup.error st
    end ∧
  FirekitCollectionGroup.loading st' =
    match evs with [] => FirekitCollectionGroup.loading st | _ => false end ∧
  group_ref st' = group_ref st.
Proof.
  cbv zeta.
  assert (Hempty : ∀ s, FirekitCollectionGroup.empty s = true ↔
                        FirekitCollectionGroup.data s = []).
  { intros s. unfold FirekitCollectionGroup.empty, FirekitCollectionGroup.data.
    destruct (FirekitCollectionGroup._data s); cbn; naive_solver. }
  induction evs as [|ev evs IH] using rev_ind; [by split_and!|].
  unfold group_run in *. rewrite fold_left_app. cbn.
  unfold last_group_snapshot in *. rewrite last_omap_snoc, last_snoc.
  destruct IH as (Hd & Hs & _ & He & Hl & Hr).
  destruct ev as [s|e]; cbn; split_and!; try done; try (by destruct evs);
    try (unfold FirekitCollectionGroup.size; cbn; by rewrite length_map);
    try apply Hempty.
  by destruct (map _ _).
Qed.

(** X14: after any sequence of callbacks, [data] of a FirekitRealtimeDB is the
    last value delivered, [error] is that of the last callback (null after a
    value), [loading] is false once any callback has run, and the reference
    and the unsubscribe function are what they were. *)
Theorem realtime_reflects_last_callbacks (st : FirekitRealtimeDB.t)
    (evs : list value_event) :
  let st' := value_run st evs in
  FirekitRealtimeDB.data st' =
    match last_value evs with Some val => val | None => FirekitRealtimeDB.data st end ∧
  FirekitRealtimeDB.error st' =
    match last evs with
    | Some (ValueError e) => Some e
    | Some (Value _) => None
    | None => FirekitRealtimeDB.error st
    end ∧
  FirekitRealtimeDB.loading st' =
    match evs with [] => FirekitRealtimeDB.loading st | _ => false end ∧
  FirekitRealtimeDB.dbRef st' = FirekitRealtimeDB.dbRef st ∧
  FirekitRealtimeDB.unsubscribe st' = FirekitRealtimeDB.unsubscribe st.
Proof.
  cbv zeta. induction evs as [|ev evs IH] using rev_ind; [done|].
  unfold value_run in *. rewrite fold_left_app. cbn.
  unfold last_value in *. rewrite last_omap_snoc, last_snoc.
  destruct IH as (Hd & He & Hl & Hr & Hu).
  destruct ev as [val|e]; cbn; split_and!; try done; by destruct evs.
Qed.

Lemma value_run_keeps_unsubscribe (st : FirekitRealtimeDB.t) (evs : list value_event) :
  FirekitRealtimeDB.unsubscribe (value_run st evs) = FirekitRealtimeDB.unsubscribe st.
Proof.
  revert st. induction evs as [|ev evs IH]; intros st; [done|].
  cbn. unfold value_run in IH. rewrite IH. by destruct ev.
Qed.

Lemma dispose_times_calls (n : nat) (st : FirekitRealtimeDB.t)
    (calls : list FirekitRealtimeDB.call) :
  dispose_times n st calls =
    (st, calls ++ match FirekitRealtimeDB.unsubscribe st with
                  | Some h => replicate n (FirekitRealtimeDB.Unsubscribe h)
                  | None => []
                  end).
Proof.
  induction n as [|n IH].
  - unfold dispose_times. cbn.
    by destruct (FirekitRealtimeDB.unsubscribe st); rewrite app_nil_r.
  - change (dispose_times (S n) st calls)
      with (FirekitRealtimeDB.dispose (fst (dispose_times n st calls))
                                      (snd (dispose_times n st calls))).
    rewrite IH. unfold FirekitRealtimeDB.dispose. cbn.
    destruct (FirekitRealtimeDB.unsubscribe st) as [hd|]; [|done].
    rewrite <- app_assoc. do 2 f_equal.
    change [FirekitRealtimeDB.Unsubscribe hd] with (replicate 1 (FirekitRealtimeDB.Unsubscribe hd)).
    rewrite <- replicate_add. by rewrite Nat.add_comm.
Qed.

(** X15: [dispose], called [n] times after any callbacks, changes no field and
    calls the unsubscribe function that [onValue] returned [n] times: the
    function is not forgotten after the first call.  When no subscription was
    made (off the browser, or construction failed) it calls nothing. *)
Theorem dispose_cancels_what_was_subscribed (browser : bool) (v : FirekitRealtimeDB.sdk)
    (path : string) (startWith : value) (evs : list value_event) (n : nat) :
  let built := FirekitRealtimeDB.constructor browser v path startWith [] in
  let st := value_run (fst built) evs in
  let after := dispose_times n st (snd built) in
  fst after = st ∧
  ((∃ r hd, browser = true ∧ FirekitRealtimeDB.getDatabaseInstance v = Returned () ∧
            FirekitRealtimeDB.ref v path = Returned r ∧
            FirekitRealtimeDB.onValue v r = Returned hd ∧
            snd built = [FirekitRealtimeDB.Subscribe r hd] ∧
            snd after = FirekitRealtimeDB.Subscribe r hd ::
                        replicate n (FirekitRealtimeDB.Unsubscribe hd)) ∨
   (snd built = [] ∧ snd after = [] ∧
    (browser = false ∨ FirekitRealtimeDB.error (fst built) ≠ None))).
Proof.
  cbv zeta. rewrite dispose_times_calls. split; [done|].
  rewrite value_run_keeps_unsubscribe.
  unfold FirekitRealtimeDB.constructor, FirekitRealtimeDB.initializeRealtimeDB.
  destruct browser; cbn; [|right; eauto].
  destruct (FirekitRealtimeDB.getDatabaseInstance v) as [[]|e0]; cbn; [|right; eauto].
  destruct (FirekitRealtimeDB.ref v path) as [r|e1]; cbn; [|right; eauto].
  destruct (FirekitRealtimeDB.onValue v r) as [hd|e2] eqn:Hsub; cbn; [|right; eauto].
  left. exists r, hd. by split_and!.
Qed.

Lemma value_run_keeps_dbRef (st : FirekitRealtimeDB.t) (evs : list value_event) :
  FirekitRealtimeDB.dbRef (value_run st evs) = FirekitRealtimeDB.dbRef st.
Proof.
  revert st. induction evs as [|ev evs IH]; intros st; [done|].
  cbn. unfold value_run in IH. rewrite IH. by destruct ev.
Qed.

(** X16: without a database reference (off the browser, or when
    [getDatabaseInstance] or [ref] threw) [push] resolves to null and [set],
    [update] and [remove] resolve, none of them calling the vendor.  With one,
    whether or not the subscription succeeded, each calls the vendor on that
    reference and ends as the call ends; [push] writes the data at the new
    reference and resolves to its key. *)
Theorem writes_follow_the_reference (browser : bool) (v : FirekitRealtimeDB.sdk)
    (path : string) (startWith : value) (evs : list value_event)
    (w : FirekitRealtimeWrites.sdk) (data : value) (h : list FirekitRealtimeWrites.call) :
  let st := value_run (fst (FirekitRealtimeDB.constructor browser v path startWith [])) evs in
  match FirekitRealtimeWrites.ref st with
  | Thrown _ =>
      (browser = false ∨ (∃ e, FirekitRealtimeDB.getDatabaseInstance v = Thrown e) ∨
       (∃ e, FirekitRealtimeDB.ref v path = Thrown e)) ∧
      FirekitRealtimeWrites.push w st data h = (Returned None, h) ∧
      FirekitRealtimeWrites.set w st data h = (Returned (), h) ∧
      FirekitRealtimeWrites.update w st data h = (Returned (), h) ∧
      FirekitRealtimeWrites.remove w st h = (Returned (), h)
  | Returned r =>
      browser = true ∧ FirekitRealtimeDB.ref v path = Returned r ∧
      FirekitRealtimeWrites.set w st data h =
        (FirekitRealtimeWrites.set_ w h r data, h ++ [FirekitRealtimeWrites.SetAt r data]) ∧
      FirekitRealtimeWrites.update w st data h =
        (FirekitRealtimeWrites.update_ w h r data,
         h ++ [FirekitRealtimeWrites.UpdateAt r data]) ∧
      FirekitRealtimeWrites.remove w st h =
        (FirekitRealtimeWrites.remove_ w h r, h ++ [FirekitRealtimeWrites.RemoveAt r]) ∧
      match FirekitRealtimeWrites.push_ w h r with
      | Thrown e =>
          FirekitRealtimeWrites.push w st data h =
            (Thrown e, h ++ [FirekitRealtimeWrites.Push r])
      | Returned newRef =>
          let written := FirekitRealtimeWrites.SetAt
                           (FirekitRealtimeWrites.new_path newRef) data in
          snd (FirekitRealtimeWrites.push w st data h) =
            h ++ [FirekitRealtimeWrites.Push r; written] ∧
          fst (FirekitRealtimeWrites.push w st data h) =
            match FirekitRealtimeWrites.set_ w (h ++ [FirekitRealtimeWrites.Push r])
                    (FirekitRealtimeWrites.new_path newRef) data with
            | Returned _ => Returned (FirekitRealtimeWrites.key newRef)
            | Thrown e => Thrown e
            end
      end
  end.
Proof.
  cbv zeta.
  unfold FirekitRealtimeWrites.ref, FirekitRealtimeWrites.push, FirekitRealtimeWrites.set,
    FirekitRealtimeWrites.update, FirekitRealtimeWrites.remove.
  rewrite value_run_keeps_dbRef.
  unfold FirekitRealtimeDB.constructor, FirekitRealtimeDB.initializeRealtimeDB.
  destruct browser; cbn; [|by eauto 8].
  destruct (FirekitRealtimeDB.getDatabaseInstance v) as [[]|e0]; cbn; [|by eauto 8].
  destruct (FirekitRealtimeDB.ref v path) as [r|e1]; cbn; [|by eauto 8].
  destruct (FirekitRealtimeDB.onValue v r) as [hd|e2]; cbn;
    (split_and!; [done | done | done | done | done |]);
    (destruct (FirekitRealtimeWrites.push_ w h r) as [newRef|e]; cbn; [|done]);
    (destruct (FirekitRealtimeWrites.set_ w _ _ data); cbn;
     by rewrite <- app_assoc).
Qed.
End WrapperLifeProps.

Module RealtimeListProps.
Import FirekitRealtimeList.

Lemma key_of_inj (i j : nat) : key_of i = key_of j → i = j.
Proof.
  unfold key_of. intros H. apply (inj (String.append "key")) in H.
  by apply (inj pretty) in H.
Qed.

(** Assigning a name the record does not hold appends it. *)
Lemma assign_fresh (acc : record) (k : string) (item : obj) :
  k ∉ acc.*1 → assign acc k item = acc ++ [(k, item)].
Proof.
  induction acc as [|[k' x] rest IH]; cbn; [done|].
  intros Hk. apply not_elem_of_cons in Hk as [Hne Hk].
  destruct (String.eqb_spec k' k) as [->|_]; [done|]. by rewrite IH.
Qed.

Lemma reduce_from_fresh (i : nat) (acc : record) (items : list obj) :
  (∀ k, k ∈ acc.*1 → ∃ j, j < i ∧ k = key_of j) →
  reduce_from i acc items = acc ++ imap (λ j item, (key_of (i + j), item)) items.
Proof.
  revert i acc. induction items as [|item rest IH]; intros i acc Hacc; cbn.
  - by rewrite app_nil_r.
  - rewrite assign_fresh.
    + rewrite IH.
      * rewrite <- app_assoc. cbn. rewrite Nat.add_0_r. do 2 f_equal.
        apply imap_ext. intros j x _. cbn. do 2 f_equal. lia.
      * intros k. rewrite fmap_app, elem_of_app. cbn.
        intros [Hk | ->%list_elem_of_singleton].
        -- destruct (Hacc k Hk) as (j & Hj & ->). exists j. split; [lia | done].
        -- exists i. split; [lia | done].
    + intros Hk. destruct (Hacc _ Hk) as (j & Hj & Heq).
      apply key_of_inj in Heq. lia.
Qed.

Lemma startWithRecord_imap (items : list obj) :
  startWithRecord items = imap (λ i item, (key_of i, item)) items.
Proof.
  unfold startWithRecord. rewrite reduce_from_fresh; [done|].
  intros k Hk. by apply elem_of_nil in Hk.
Qed.

(** X17: [firekitRealtimeList] stores [startWith] as a record under the
    distinct names key0, key1, ... in order.  Until a value arrives, [list]
    has one entry per item, in order: the item with [id] set to its name
    where the item has no [id] of its own (a stored [id] wins), every other
    field unchanged. *)
Theorem startWith_comes_back_as_list (items : list obj) :
  startWithRecord items = imap (λ i item, (key_of i, item)) items ∧
  NoDup (startWithRecord items).*1 ∧
  _list (Some (startWithRecord items)) =
    imap (λ i item, spread (with_prop ∅ "id" (VStr (key_of i))) item) items ∧
  length (_list (Some (startWithRecord items))) = length items ∧
  (∀ i item, items !! i = Some item →
     ∃ o, _list (Some (startWithRecord items)) !! i = Some o ∧
          (∀ k x, item !! k = Some x → o !! k = Some x) ∧
          (item !! "id" = None → o !! "id" = Some (VStr (key_of i))) ∧
          (∀ k, k ≠ "id" → o !! k = item !! k)) ∧
  (∀ browser v path calls,
     FirekitRealtimeDB.data (fst (constructor browser v path items calls)) =
       as_value (startWithRecord items)).
Proof.
  rewrite startWithRecord_imap.
  assert (Hlist : _list (Some (imap (λ i item, (key_of i, item)) items)) =
                  imap (λ i item, spread (with_prop ∅ "id" (VStr (key_of i))) item) items).
  { cbn. change (map ?f ?l) with (f <$> l). by rewrite fmap_imap. }
  split_and!; [done | | done | | |].
  - rewrite fmap_imap. apply NoDup_alt. intros i j k.
    rewrite !list_lookup_imap. intros Hi Hj.
    destruct (items !! i), (items !! j); simplify_eq/=. by apply key_of_inj.
  - by rewrite Hlist, length_imap.
  - intros i item Hi. rewrite Hlist, list_lookup_imap, Hi. cbn.
    eexists; split; [done|]. unfold spread, with_prop. split_and!.
    + intros k x Hk. by apply lookup_union_Some_l.
    + intros Hid. rewrite lookup_union_r by done. by rewrite lookup_insert_eq.
    + intros k Hk. destruct (item !! k) eqn:Hd.
      * by apply lookup_union_Some_l.
      * rewrite lookup_union_r by done. by rewrite lookup_insert_ne, lookup_empty.
  - intros browser v path calls.
    unfold constructor, FirekitRealtimeDB.constructor,
      FirekitRealtimeDB.initializeRealtimeDB.
    rewrite <- startWithRecord_imap.
    destruct browser; cbn; [|done].
    destruct (FirekitRealtimeDB.getDatabaseInstance v) as [[]|]; cbn; [|done].
    destruct (FirekitRealtimeDB.ref v path); cbn; [|done].
    by destruct (FirekitRealtimeDB.onValue v _).
Qed.
End RealtimeListProps.

Module PresenceMoreProps.
Import PresenceService PresenceSpec PresenceMore.

Section Laws.

Context {Location : Type} (E : @env Location).

Abbreviation state := (@t Location * @world Location)%type.

Section Keeps.

Variable R : @t Location → @t Location → Prop.
Hypothesis R_refl : ∀ a, R a a.
Hypothesis R_trans : ∀ a b c, R a b → R b c → R a c.

Lemma keeps_ret {A} (a : A) : keeps R (mret a : P A).
Proof. intros s r s' [= <- <-]. apply R_refl. Qed.

Lemma keeps_throw {A} (e : obj) : keeps R (@throw Location A e).
Proof. intros s r s' [= <- <-]. apply R_refl. Qed.

Lemma keeps_ask {A} (f : world → outcome A) : keeps R (ask f).
Proof. intros s r s' [= <- <-]. apply R_refl. Qed.

Lemma keeps_write c (f : world → outcome unit) : keeps R (write c f).
Proof. intros s r s' [= <- <-]. apply R_refl. Qed.

Lemma keeps_gets {A} (f : t → A) : keeps R (gets f).
Proof. intros s r s' [= <- <-]. apply R_refl. Qed.

Lemma keeps_emitEvent ev : keeps R (@emitEvent Location ev).
Proof. intros s r s' [= <- <-]. apply R_refl. Qed.

Lemma keeps_modify (f : t → t) : (∀ a, R a (f a)) → keeps R (modify f).
Proof. intros Hf s r s' [= <- <-]. apply Hf. Qed.

Lemma keeps_bind {A B} (m : P A) (f : A → P B) :
  keeps R m → (∀ a, keeps R (f a)) → keeps R (m ≫= f).
Proof.
  intros Hm Hf s r s'. unfold mbind, P_bind.
  destruct (m s) as [[a|e] s1] eqn:Hms.
  - intros Hfs. eapply R_trans; [exact (Hm _ _ _ Hms) | exact (Hf _ _ _ _ Hfs)].
  - intros [= <- <-]. exact (Hm _ _ _ Hms).
Qed.

Lemma keeps_try_catch {A} (m : P A) (h : obj → P A) :
  keeps R m → (∀ e, keeps R (h e)) → keeps R (try_catch m h).
Proof.
  intros Hm Hh s r s'. unfold try_catch.
  destruct (m s) as [[a|e] s1] eqn:Hms.
  - intros [= <- <-]. exact (Hm _ _ _ Hms).
  - intros Hhs. eapply R_trans; [exact (Hm _ _ _ Hms) | exact (Hh _ _ _ _ Hhs)].
Qed.

Lemma keeps_quiet {A} (m : P A) : quiet m → keeps R m.
Proof. intros Hq s r s' Hrun. destruct (Hq _ _ _ Hrun) as [-> _]. apply R_refl. Qed.

Lemma keeps_store_and_rethrow {A} (e : obj) :
  (∀ a, R a (set_error e a)) → keeps R (@store_and_rethrow Location E A e).
Proof.
  intros He. unfold store_and_rethrow.
  apply keeps_bind; [by apply keeps_modify | intros _].
  apply keeps_bind; [apply keeps_ask | intros ts].
  apply keeps_bind; [apply keeps_emitEvent | intros _]. apply keeps_throw.
Qed.

Lemma keeps_setPresence (st : Status) :
  (∀ e a, R a (set_error e a)) →
  (∀ l c a, R a (publish l c st a)) →
  keeps R (setPresence E st).
Proof.
  intros He Hp. unfold setPresence.
  apply keeps_try_catch; [|intros e; by apply keeps_store_and_rethrow].
  unfold setPresence_body.
  apply keeps_bind; [apply keeps_gets | intros [user|]]; [|apply keeps_throw].
  apply keeps_bind; [apply keeps_ask | intros _].
  apply keeps_bind; [apply keeps_ask | intros userSessionsRef].
  apply keeps_bind; [apply keeps_ask | intros device].
  apply keeps_bind; [apply keeps_quiet, PresenceProps.quiet_getLocation | intros loc].
  apply keeps_bind; [apply keeps_ask | intros snapshot].
  apply keeps_bind; [apply keeps_quiet, PresenceProps.quiet_merge_session | intros merged].
  apply keeps_bind; [apply keeps_quiet, PresenceProps.quiet_drop_stale | intros kept].
  apply keeps_bind; [apply keeps_write | intros _].
  apply keeps_bind; [by apply keeps_modify | intros _].
  apply keeps_bind; [apply keeps_ask | intros ts]. apply keeps_emitEvent.
Qed.

End Keeps.

Lemma same_setup_refl (a : @t Location) : same_setup a a.
Proof. by repeat split. Qed.

Lemma same_setup_trans (a b c : @t Location) :
  same_setup a b → same_setup b c → same_setup a c.
Proof. unfold same_setup. intuition congruence. Qed.

(** Either the first computation returned and the second ran, or the first
    threw and that is the end. *)
Lemma bind_cases {A B} (m : P A) (f : A → P B) (s s' : state) (r : outcome B) :
  (m ≫= f) s = (r, s') →
  (∃ a s1, m s = (Returned a, s1) ∧ f a s1 = (r, s')) ∨
  (∃ e, m s = (Thrown e, s') ∧ r = Thrown e).
Proof.
  unfold mbind, P_bind. destruct (m s) as [[a|e] s1]; [eauto|].
  intros [= <- <-]. eauto.
Qed.

Lemma ask_run {A} (f : world → outcome A) (s s1 : state) (r : outcome A) :
  ask f s = (r, s1) →
  f (snd s) = r ∧ fst s1 = fst s ∧ dbcalls (snd s1) = dbcalls (snd s).
Proof. by intros [= -> <-]. Qed.

(** How a run of the [try] block of [setPresence] can end. *)
Lemma setPresence_body_cases (st : Status) (s s1 : state) (r : outcome unit) :
  setPresence_body E st s = (r, s1) →
  (∃ e, r = Thrown e ∧ fst s1 = fst s ∧ dbcalls (snd s1) = dbcalls (snd s)) ∨
  (∃ user w userSessionsRef sessionDatas,
     currentUser (fst s) = Some user ∧
     ref E w (String.append "sessions/" (user_uid user)) = Returned userSessionsRef ∧
     dbcalls (snd s1) = dbcalls (snd s) ++ [DbSet userSessionsRef sessionDatas] ∧
     ((∃ e w', r = Thrown e ∧ set_ E w' userSessionsRef sessionDatas = Thrown e ∧
               fst s1 = fst s) ∨
      (∃ current, fst s1 = publish sessionDatas current st (fst s) ∧
         (r = Returned () ∨
          ∃ e ev, r = Thrown e ∧ call_all (eventListeners (fst s)) ev = Thrown e)))).
Proof.
  unfold setPresence_body. intros Hrun.
  apply bind_cases in Hrun as [(cu & s0 & [= <- <-] & Hrun) | (e & [=] & _)].
  destruct (currentUser (fst s)) as [user|] eqn:Huser;
    [|injection Hrun as <- <-; left; eauto].
  apply bind_cases in Hrun as
    [(u1 & s2 & (_ & Hf2 & Hd2)%ask_run & Hrun) | (e & (_ & Hf & Hd)%ask_run & ->)];
    [|left; eauto].
  apply bind_cases in Hrun as
    [(userSessionsRef & s3 & (Href & Hf3 & Hd3)%ask_run & Hrun)
    | (e & (_ & Hf & Hd)%ask_run & ->)];
    [|left; eexists; split_and!; [done | congruence | congruence]].
  apply bind_cases in Hrun as
    [(device & s4 & (_ & Hf4 & Hd4)%ask_run & Hrun) | (e & (_ & Hf & Hd)%ask_run & ->)];
    [|left; eexists; split_and!; [done | congruence | congruence]].
  apply bind_cases in Hrun as
    [(loc & s5 & [Hf5 Hd5]%PresenceProps.quiet_getLocation & Hrun)
    | (e & [Hf Hd]%PresenceProps.quiet_getLocation & ->)];
    [|left; eexists; split_and!; [done | congruence | congruence]].
  apply bind_cases in Hrun as
    [(snapshot & s6 & (_ & Hf6 & Hd6)%ask_run & Hrun)
    | (e & (_ & Hf & Hd)%ask_run & ->)];
    [|left; eexists; split_and!; [done | congruence | congruence]].
  apply bind_cases in Hrun as
    [(merged & s7 & [Hf7 Hd7]%PresenceProps.quiet_merge_session & Hrun)
    | (e & [Hf Hd]%PresenceProps.quiet_merge_session & ->)];
    [|left; eexists; split_and!; [done | congruence | congruence]].
  apply bind_cases in Hrun as
    [(kept & s8 & [Hf8 Hd8]%PresenceProps.quiet_drop_stale & Hrun)
    | (e & [Hf Hd]%PresenceProps.quiet_drop_stale & ->)];
    [|left; eexists; split_and!; [done | congruence | congruence]].
  right. exists user, (snd s2), userSessionsRef, kept.
  apply bind_cases in Hrun as
    [(u9 & s9 & [= Hset <-] & Hrun) | (e & [= Hset <-] & ->)]; cbn.
  - apply bind_cases in Hrun as [(u10 & s10 & [= _ <-] & Hrun) | (e & [=] & _)].
    apply bind_cases in Hrun as [(ts & s11 & [= _ <-] & Hrun) | (e & [=] & _)].
    unfold emitEvent in Hrun. cbn in Hrun. injection Hrun as Hr <-. cbn.
    split_and!; [done | done | congruence |]. right. eexists. split; [by rewrite Hf8, Hf7, Hf6, Hf5, Hf4, Hf3, Hf2|].
    destruct r as [[]|e]; [by left|]. right. rewrite Hf8, Hf7, Hf6, Hf5, Hf4, Hf3, Hf2 in Hr. eauto.
  - split_and!; [done | done | congruence |]. left. eexists _, _.
    split_and!; [done | exact Hset | congruence].
Qed.


Lemma store_and_rethrow_fields {A} (e : obj) (s s' : state) (r : outcome A) :
  store_and_rethrow E e s = (r, s') →
  (∃ e', r = Thrown e') ∧ fst s' = set_error e (fst s) ∧
  dbcalls (snd s') = dbcalls (snd s).
Proof.
  rewrite PresenceProps.store_and_rethrow_run. intros [= <- <-].
  split_and!; [|done|done]. destruct (call_all _ _); eauto.
Qed.



End Laws.


(** In that run the sessions were written and published before the listener
    threw. *)
Example listener_failure_after_publication :
  let run := setPresence env_two_devices online with_deaf_listener in
  fst run = Thrown deaf ∧
  sessions (fst (snd run)) = [browser_session_online] ∧
  dbcalls (snd (snd run)) = [DbSet "sessions/u1" [browser_session_online]] ∧
  error (fst (snd run)) = Some deaf.
Proof. cbv zeta. split_and!; vm_compute; reflexivity. Qed.

Lemma list_find_fmap_uid {Location : Type} sessionId
    (l : list (SessionData Location)) x :
  snd <$> list_find (has_uid sessionId) l = Some x → uid x = sessionId.
Proof.
  destruct (list_find _ l) as [[i y]|] eqn:Hfind; [|done].
  intros [= <-]. by apply list_find_Some in Hfind as (_ & Hy & _).
Qed.

Section Sessions.

Context {Location : Type} (E : @env Location).

Abbreviation state := (@t Location * @world Location)%type.

(** What the merge leaves: the session with the wanted uid comes first among
    its like and carries the new status; the other sessions are all there. *)
Lemma merge_session_result snapshot sessionId user device st loc (s s1 : state) l :
  merge_session E snapshot sessionId user device st loc s = (Returned l, s1) →
  (∃ x, snd <$> list_find (has_uid sessionId) l = Some x ∧ status x = st) ∧
  (∀ y, y ∈ stored snapshot → uid y ≠ sessionId → y ∈ l) ∧
  length l = if decide (sessionId ∈ uid <$> stored snapshot)
             then length (stored snapshot) else S (length (stored snapshot)).
Proof.
  unfold merge_session. intros Hrun.
  destruct snapshot as [val|].
  - assert (Hst : default [] val = stored (Some val)) by by destruct val.
    rewrite Hst in Hrun. set (old := stored (Some val)) in *.
    destruct (list_find (has_uid sessionId) old) as [[i x]|] eqn:Hfind.
    + apply PresenceProps.bind_Returned in Hrun as (seen & s2 & _ & [= <- _]).
      apply list_find_Some in Hfind as (Hi & Hx & Hbefore).
      split_and!.
      * exists (refresh x st seen loc). split; [|done].
        assert (Hf : list_find (has_uid sessionId) (<[i:=refresh x st seen loc]> old)
                     = Some (i, refresh x st seen loc)); [|by rewrite Hf].
        apply list_find_Some. split_and!.
        -- apply list_lookup_insert_eq. by eapply lookup_lt_Some.
        -- exact Hx.
        -- intros j y Hj Hlt. rewrite list_lookup_insert_ne in Hj by lia. eauto.
      * intros y (j & Hj)%list_elem_of_lookup Hy.
        apply list_elem_of_lookup. exists j.
        rewrite list_lookup_insert_ne; [done|]. intros ->. by simplify_eq.
      * rewrite length_insert. rewrite decide_True; [done|].
        apply list_elem_of_fmap. exists x. split; [done | by eapply list_elem_of_lookup_2].
    + apply PresenceProps.bind_Returned in Hrun as (created & s2 & _ & Hrun).
      apply PresenceProps.bind_Returned in Hrun as (seen & s3 & _ & [= <- _]).
      apply list_find_None in Hfind. rewrite Forall_forall in Hfind.
      split_and!.
      * exists (new_session sessionId user device st created seen loc).
        split; [|reflexivity].
        assert (Hf : list_find (has_uid sessionId)
                       (old ++ [new_session sessionId user device st created seen loc])
                     = Some (length old,
                             new_session sessionId user device st created seen loc));
          [|by rewrite Hf].
        apply list_find_Some. split_and!.
        -- by rewrite lookup_app_r, Nat.sub_diag.
        -- done.
        -- intros j y Hj Hlt. rewrite lookup_app_l in Hj by done.
           apply Hfind. by eapply list_elem_of_lookup_2.
      * intros y Hy _. apply elem_of_app. by left.
      * rewrite length_app. cbn. rewrite decide_False; [lia|].
        intros (y & Hy & Hin)%list_elem_of_fmap. by apply (Hfind y).
  - apply PresenceProps.bind_Returned in Hrun as (created & s2 & _ & Hrun).
    apply PresenceProps.bind_Returned in Hrun as (seen & s3 & _ & [= <- _]).
    split_and!; [| by intros y Hy%elem_of_nil | done].
    exists (new_session sessionId user device st created seen loc). split; [|done].
    cbn. by rewrite decide_True.
Qed.


End Sessions.


(** In that run the phone session, though last seen long before, is kept. *)
Example no_ttl_run :
  let run := setPresence env_two_devices online after_initialize_no_ttl in
  fst run = Returned () ∧
  sessions (fst (snd run)) = [phone_session; browser_session_online].
Proof. cbv zeta. split_and!; vm_compute; reflexivity. Qed.

Section Teardown.

Context {Location : Type} (E : @env Location).
Variable unsubscribe : @world Location → nat → outcome unit.

Abbreviation state := (@t Location * @world Location)%type.



Lemma getLocation_gate (s : state) :
  geo_enabled (config (fst s)) = false ∨
  (geo_requireConsent (config (fst s)) = true ∧ locationConsent (fst s) = false) →
  getLocation E s = (Returned None, s).
Proof.
  unfold getLocation, mbind, P_bind, gets. cbn.
  intros [-> | [-> ->]]; cbn; [done|]. by rewrite orb_true_r.
Qed.

Lemma setPresence_status (st : Status) (s : state) :
  _status (fst s) = st → _status (fst (snd (setPresence E st s))) = st.
Proof.
  destruct (setPresence E st s) as [r s'] eqn:Hrun. revert Hrun.
  apply (keeps_setPresence E (λ a b, _status a = st → _status b = st)); by auto.
Qed.

Lemma setPresence_same_setup (st : Status) (s : state) :
  same_setup (fst s) (fst (snd (setPresence E st s))).
Proof.
  destruct (setPresence E st s) as [r s'] eqn:Hrun. revert Hrun.
  apply (keeps_setPresence E same_setup same_setup_refl same_setup_trans);
    intros; by repeat split.
Qed.


End Teardown.

Section Initialize.

Context {Location : Type} (E : @env Location).

Abbreviation state := (@t Location * @world Location)%type.

(** X24: in the browser, [initialize] on a service that is initialised already
    returns, whatever user and configuration it is given, and changes nothing
    but [loading], which becomes false. *)
Theorem initialize_twice_is_ignored (user : option User) (arg : option PresenceConfig)
    (s : state) :
  browser E = true → initialized (fst s) = true →
  initialize E user arg s = (Returned (), (set_loading false (fst s), snd s)).
Proof.
  intros Hb Hi. unfold initialize, finally, try_catch, initialize_body.
  rewrite Hb. cbn. unfold mbind, P_bind, gets. cbn. by rewrite Hi.
Qed.



(** Unfold [initialize] down to the answers of the runtime. *)
Ltac unfold_initialize H :=
  unfold initialize, finally, try_catch, initialize_body, requestLocationConsent,
    initializePresence, startLocationWatcher, store_and_rethrow, try_catch,
    mbind, P_bind, mret, P_ret, gets, modify, ask, now, emitEvent, throw in H;
  cbn in H.




End Initialize.

Lemma initialize_twice_is_ignored_witness :
  initialize (sample_env true None) (Some ann) (Some no_ttl) after_initialize =
    (Returned (), (set_loading false (fst after_initialize), snd after_initialize)).
Proof.
  apply (initialize_twice_is_ignored (sample_env true None)); vm_compute; reflexivity.
Defined.



End PresenceMoreProps.

Module DeviceInfoProps.
Import DeviceInfo.

Lemma match_name_spec (name input m rest : units) :
  match_name name input = Some (m, rest) →
  input = m ++ rest ∧ Forall2 (λ p c, same_letter p c = true) name m.
Proof.
  revert input m rest. induction name as [|p name IH]; intros input m rest; cbn.
  - intros [= <- <-]. by split.
  - destruct input as [|c input]; [done|].
    destruct (same_letter p c) eqn:Hpc; [|done].
    destruct (match_name name input) as [[m' rest']|] eqn:Hrec; [|done].
    intros [= <- <-]. destruct (IH _ _ _ Hrec) as [-> Hall].
    split; [done | by constructor].
Qed.

Lemma match_here_spec (alts : list (string * bool)) (input m : units) :
  match_here alts input = Some m →
  ∃ alt rest, alt ∈ alts ∧ match_name (units_of (fst alt)) input = Some (m, rest).
Proof.
  induction alts as [|alt alts IH]; cbn; [done|].
  unfold match_alternative.
  destruct (match_name (units_of (fst alt)) input) as [[m' rest]|] eqn:Hname.
  - destruct (_ && _).
    + intros [= <-]. exists alt, rest. split; [by left | done].
    + intros (alt' & rest' & Hin & Hm)%IH. exists alt', rest'. split; [by right | done].
  - intros (alt' & rest' & Hin & Hm)%IH. exists alt', rest'. split; [by right | done].
Qed.

Lemma search_spec (input m : units) :
  search input = Some m →
  ∃ pre post name, input = pre ++ m ++ post ∧ name ∈ names ∧
                   Forall2 (λ p c, same_letter p c = true) name m.
Proof.
  induction input as [|c input IH].
  - cbn -[alternatives]. destruct (match_here alternatives []) as [m'|] eqn:Hhere; [|done].
    intros [= <-]. apply match_here_spec in Hhere as (alt & rest & Hin & Hm).
    apply match_name_spec in Hm as [Heq Hall].
    exists [], rest, (units_of (fst alt)). split_and!; [done | | done].
    unfold names. apply list_elem_of_fmap. by exists alt.
  - cbn -[alternatives].
    destruct (match_here alternatives (c :: input)) as [m'|] eqn:Hhere.
    + intros [= <-]. apply match_here_spec in Hhere as (alt & rest & Hin & Hm).
      apply match_name_spec in Hm as [Heq Hall].
      exists [], rest, (units_of (fst alt)). split_and!; [done | | done].
      unfold names. apply list_elem_of_fmap. by exists alt.
    + intros (pre & post & name & -> & Hin & Hall)%IH.
      by exists (c :: pre), post, name.
Qed.

Lemma names_lowercase : Forall (Forall (λ p, lowercase p = true)) names.
Proof. vm_compute. repeat constructor. Qed.

Lemma same_letter_lower (p c : N) :
  lowercase p = true → same_letter p c = true → lower c = p ∧ is_letter c = true.
Proof.
  unfold lowercase, same_letter, lower, is_letter. intros Hp Hc.
  apply andb_true_iff in Hp as [Hp1%N.leb_le Hp2%N.leb_le].
  apply orb_true_iff in Hc as [->%N.eqb_eq | ->%N.eqb_eq].
  - replace (65 <=? p)%N with true by (symmetry; apply N.leb_le; lia).
    replace (p <=? 90)%N with false by (symmetry; apply N.leb_gt; lia).
    replace (97 <=? p)%N with true by (symmetry; apply N.leb_le; lia).
    replace (p <=? 122)%N with true by (symmetry; apply N.leb_le; lia). done.
  - replace (65 <=? p - 32)%N with true by (symmetry; apply N.leb_le; lia).
    replace (p - 32 <=? 90)%N with true by (symmetry; apply N.leb_le; lia).
    cbn. split; [lia|]. by rewrite orb_true_r.
Qed.

Lemma matched_name (name m : units) :
  Forall (λ p, lowercase p = true) name →
  Forall2 (λ p c, same_letter p c = true) name m →
  lower <$> m = name ∧ sanitize m = m.
Proof.
  intros Hlow Hall. induction Hall as [|p c name m Hpc Hall IH]; [done|].
  apply Forall_cons in Hlow as [Hp Hlow]. destruct (IH Hlow) as [IH1 IH2].
  destruct (same_letter_lower p c Hp Hpc) as [Hl Hk].
  split.
  - cbn. by rewrite Hl, IH1.
  - unfold sanitize in *. cbn. unfold kept at 1. rewrite Hk. cbn. by rewrite IH2.
Qed.

Lemma sanitize_app (a b : units) : sanitize (a ++ b) = sanitize a ++ sanitize b.
Proof. apply List.filter_app. Qed.

Lemma sanitize_kept (s : units) : Forall (λ c, kept c = true) (sanitize s).
Proof.
  apply Forall_forall. intros c Hc%list_elem_of_In.
  by apply List.filter_In in Hc as [_ Hc].
Qed.

(** X28: [getDeviceInfo] returns a browser name, a hyphen, and the platform
    stripped of all but letters, digits and hyphens.  The name is a piece of
    the user agent equal, letter case aside, to one of the seven names of the
    pattern, or UnknownBrowser (the space stripped) when the pattern matches
    nowhere.  The result holds letters, digits and hyphens only, hence no
    underscore. *)
Theorem device_info_shape (userAgent platform : units) :
  ∃ browser,
    getDeviceInfo userAgent platform = browser ++ units_of "-" ++ sanitize platform ∧
    (browser = units_of "UnknownBrowser" ∧ search userAgent = None ∨
     lower <$> browser ∈ names ∧ ∃ pre post, userAgent = pre ++ browser ++ post) ∧
    Forall (λ c, kept c = true) (getDeviceInfo userAgent platform) ∧
    95%N ∉ getDeviceInfo userAgent platform.
Proof.
  assert (Hkept : Forall (λ c, kept c = true) (getDeviceInfo userAgent platform))
    by apply sanitize_kept.
  assert (Hno : 95%N ∉ getDeviceInfo userAgent platform).
  { intros Hin. rewrite Forall_forall in Hkept. by apply Hkept in Hin. }
  unfold getDeviceInfo in *.
  destruct (search userAgent) as [m|] eqn:Hsearch.
  - change (default (units_of "Unknown Browser") (Some m)) with m in *.
    apply search_spec in Hsearch as (pre & post & name & -> & Hin & Hall).
    assert (Hlow : Forall (λ p, lowercase p = true) name).
    { pose proof names_lowercase as Hnames. rewrite Forall_forall in Hnames. eauto. }
    destruct (matched_name name m Hlow Hall) as [Hl Hs].
    exists m. split_and!; [by rewrite !sanitize_app, Hs | | done..].
    right. rewrite Hl. eauto.
  - exists (units_of "UnknownBrowser"). split_and!; [by rewrite !sanitize_app | by left | done..].
Qed.

Import FirekitDocumentMutations.

Lemma includes_append (c : ascii) (u d : string) :
  includes c (String.append u (String c d)) = true.
Proof.
  induction u as [|a u IH].
  - change (includes c (String c d) = true). cbn. by rewrite Ascii.eqb_refl.
  - change (includes c (String a (String.append u (String c d))) = true).
    cbn. destruct (Ascii.eqb a c); [done | exact IH].
Qed.

(** Two texts cut at a separator that neither tail contains agree part by part. *)
Lemma append_sep_inj (c : ascii) (u1 u2 d1 d2 : string) :
  includes c d1 = false → includes c d2 = false →
  String.append u1 (String c d1) = String.append u2 (String c d2) →
  u1 = u2 ∧ d1 = d2.
Proof.
  intros Hd1 Hd2. revert u2. induction u1 as [|a u1 IH]; intros [|b u2].
  - by intros [= ->].
  - change (String c d1 = String b (String.append u2 (String c d2)) → "" = String b u2 ∧ d1 = d2).
    intros [= <- ->]. by rewrite includes_append in Hd1.
  - change (String a (String.append u1 (String c d1)) = String c d2 → String a u1 = "" ∧ d1 = d2).
    intros [= -> <-]. by rewrite includes_append in Hd2.
  - change (String a (String.append u1 (String c d1)) =
            String b (String.append u2 (String c d2)) → String a u1 = String b u2 ∧ d1 = d2).
    intros [= -> Heq]. destruct (IH _ Heq) as [-> ->]. done.
Qed.

Lemma to_string_no_underscore (s : units) :
  Forall (λ c, kept c = true) s → includes "_" (to_string s) = false.
Proof.
  unfold to_string. induction 1 as [|c s Hc Hs IH]; [done|].
  cbn. rewrite IH.
  destruct (Ascii.eqb_spec (ascii_of_N c) "_") as [Heq|]; [|done].
  assert (Hlt : (c < 256)%N).
  { unfold kept, is_letter, is_digit in Hc.
    repeat (apply orb_true_iff in Hc as [Hc|Hc]);
      try (apply andb_true_iff in Hc as [_ Hc%N.leb_le]; lia).
    apply N.eqb_eq in Hc. lia. }
  apply (f_equal N_of_ascii) in Heq. rewrite N_ascii_embedding in Heq by done.
  subst c. done.
Qed.

(** X29: the session ids [setPresence] builds for two users and devices are
    equal only when the user ids are equal and the device ids are equal. *)
Theorem session_ids_unambiguous (u1 u2 : PresenceService.User)
    (ua1 pf1 ua2 pf2 : units) :
  let d1 := to_string (getDeviceInfo ua1 pf1) in
  let d2 := to_string (getDeviceInfo ua2 pf2) in
  PresenceService.session_id u1 d1 = PresenceService.session_id u2 d2 →
  PresenceService.user_uid u1 = PresenceService.user_uid u2 ∧ d1 = d2.
Proof.
  cbv zeta. unfold PresenceService.session_id.
  apply append_sep_inj; apply to_string_no_underscore, sanitize_kept.
Qed.

Lemma session_ids_unambiguous_witness :
  PresenceService.user_uid PresenceSpec.ann = PresenceService.user_uid PresenceSpec.ann ∧
  to_string (getDeviceInfo chrome_on_linux linux_x86_64) =
    to_string (getDeviceInfo chrome_bare linux_x86_64).
Proof.
  apply (session_ids_unambiguous PresenceSpec.ann PresenceSpec.ann
           chrome_on_linux linux_x86_64 chrome_bare linux_x86_64).
  vm_compute. reflexivity.
Defined.

(** What the two sample user agents give. *)
Example device_info_samples :
  to_string (getDeviceInfo chrome_on_linux linux_x86_64) = "Chrome-Linuxx8664" ∧
  to_string (getDeviceInfo chrome_bare linux_x86_64) = "Chrome-Linuxx8664" ∧
  to_string (getDeviceInfo (units_of "curl/8.5.0") linux_x86_64) = "UnknownBrowser-Linuxx8664" ∧
  to_string (getDeviceInfo (units_of "Mozilla/5.0 (Windows NT 10.0; Trident/7.0; rv:11.0)")
                           (units_of "Win32")) = "Trident-Win32".
Proof. split_and!; vm_compute; reflexivity. Qed.

End DeviceInfoProps.
